(** * AetherScan: the synthetic facility dataset of the Map page

    A shallow embedding of [industrial-air-quality/app/Map/page.tsx]:
    the generator [generateFactories], the filter and sort pipeline
    [filteredFactories] and the aggregate statistics [stats], with the
    properties the specification states about them.

    Numbers.  A JavaScript number is an IEEE 754 binary64 value.  Finite
    doubles are rationals, so a number is a [Q], and every arithmetic
    operation of the source is the exact operation followed by [fl], the
    rounding to the nearest double (ties to even, gradual underflow).
    Overflow to an infinity and NaN are outside the model; the one place
    where the source could produce them, the division in [stats], returns
    an [option].  Values produced by [Math.floor], [Math.round], a loop
    counter or [length] are integers and are typed [Z] or [nat].

    Strings are Stdlib strings of 8-bit characters. *)

From stdpp Require Import base option list gmap.
From Stdlib Require Import ZArith QArith Qround Qpower Lia Lqa.
From Stdlib Require Import List String Ascii DecimalString Sorted Permutation.
From Stdlib Require Import OrderedTypeEx.
Import ListNotations.

Local Open Scope Z_scope.

(** ** Binary64 rounding on the rationals *)

Module IEEE754.
Local Open Scope Q_scope.

(** [ilog2 x] is the binary exponent of a positive [x]:
    [2 ^ ilog2 x <= x < 2 ^ (ilog2 x + 1)]. *)
Definition ilog2 (x : Q) : Z :=
  let k := (Z.log2 (Qnum x) - Z.log2 (Zpos (Qden x)))%Z in
  if Qle_bool (2 ^ k) x then k else (k - 1)%Z.

(** Round to the nearest integer, ties to the even one. *)
Definition rne (m : Q) : Z :=
  let k := Qfloor m in
  match Qcompare (m - inject_Z k) (1 # 2) with
  | Lt => k
  | Gt => (k + 1)%Z
  | Eq => if Z.even k then k else (k + 1)%Z
  end.

(** The exponent of the last place of the doubles around [x]: 53 bits of
    precision, and never below the subnormal spacing [2 ^ -1074]. *)
Definition quantum (x : Q) : Z := Z.max (ilog2 x - 52) (-1074).

Definition fl_pos (x : Q) : Q :=
  let q := quantum x in inject_Z (rne (x / 2 ^ q)) * 2 ^ q.

(** [fl x]: the double nearest to [x], in lowest terms. *)
Definition fl (x : Q) : Q :=
  let y := Qred x in
  match Qcompare y 0 with
  | Eq => 0
  | Gt => Qred (fl_pos y)
  | Lt => Qred (- fl_pos (- y))
  end.

Definition is_double (x : Q) : bool := Qeq_bool (fl x) x.

End IEEE754.

(** ** The JavaScript built-ins the page uses *)

Module JS.
Import IEEE754.
Local Open Scope Q_scope.

(** A decimal literal of the source denotes the nearest double. *)
Definition lit (q : Q) : Q := fl q.

Definition add (a b : Q) : Q := fl (a + b).
Definition sub (a b : Q) : Q := fl (a - b).
Definition mul (a b : Q) : Q := fl (a * b).

(** [a / b]; [None] when [b] is zero, where JavaScript yields NaN or an
    infinity. *)
Definition div (a b : Q) : option Q :=
  if Qeq_bool b 0 then None else Some (fl (a / b)).

Definition Math_floor (x : Q) : Z := Qfloor x.

(** [Math.round]: the nearest integer, a tie going up. *)
Definition Math_round (x : Q) : Z := Qfloor (x + (1 # 2)).

(** [x.toFixed(digits)], as the value of the numeral it writes: the
    multiple [n / 10 ^ digits] nearest to [x], the larger [n] on a tie,
    computed on [-x] and negated when [x < 0]. *)
Definition toFixed (x : Q) (digits : nat) : Q :=
  let scale := inject_Z (10 ^ Z.of_nat digits) in
  if Qle_bool 0 x
  then inject_Z (Qfloor (x * scale + (1 # 2))) / scale
  else - (inject_Z (Qfloor (- x * scale + (1 # 2))) / scale).

(** [parseFloat] of a decimal numeral: the nearest double. *)
Definition parseFloat (numeral : Q) : Q := fl numeral.

(** The predicate [Math.random] guarantees of its result: a double in
    [0, 1). *)
Definition is_random (r : Q) : bool :=
  is_double r && Qle_bool 0 r && negb (Qle_bool 1 r).

(** *** Strings *)

(** [toLowerCase] on the code points below 256: the letters A to Z and
    the accented capitals U+00C0 to U+00DE (U+00D7, the multiplication
    sign, is not a letter). *)
Definition toLowerCase_char (c : ascii) : ascii :=
  let n := nat_of_ascii c in
  if ((65 <=? n) && (n <=? 90))%nat then ascii_of_nat (n + 32)
  else if ((192 <=? n) && (n <=? 222) && negb (n =? 215))%nat
       then ascii_of_nat (n + 32)
       else c.

Fixpoint toLowerCase (s : string) : string :=
  match s with
  | EmptyString => EmptyString
  | String c s' => String (toLowerCase_char c) (toLowerCase s')
  end.

(** [s.includes(sub)] *)
Fixpoint includes (s sub : string) : bool :=
  if String.prefix sub s then true
  else match s with
       | EmptyString => false
       | String _ s' => includes s' sub
       end.

(** [s.split(sep)[0]] for a one-character separator: the text before
    its first occurrence. *)
Fixpoint split_first (s : string) (sep : ascii) : string :=
  match s with
  | EmptyString => EmptyString
  | String c s' =>
      if Ascii.eqb c sep then EmptyString else String c (split_first s' sep)
  end.

(** [String(i)] for an integer [i] *)
Definition String_of (i : Z) : string := NilZero.string_of_int (Z.to_int i).

Fixpoint repeat_char (n : nat) (c : ascii) : string :=
  match n with
  | O => EmptyString
  | S n' => String c (repeat_char n' c)
  end.

(** [s.padStart(targetLength, pad)] for a one-character [pad] *)
Definition padStart (s : string) (targetLength : nat) (pad : ascii) : string :=
  String.append (repeat_char (targetLength - String.length s) pad) s.

(** *** Arrays *)

Section Arrays.
Context {A : Type}.

(** [a[i]]; [None] is [undefined]. *)
Definition at_index (a : list A) (i : Z) : option A :=
  if (i <? 0)%Z then None else nth_error a (Z.to_nat i).

(** [a.slice(0, end)] *)
Definition slice0 (a : list A) (end_ : Z) : list A :=
  let len := Z.of_nat (List.length a) in
  let k := if (end_ <? 0)%Z then Z.max (len + end_) 0 else Z.min end_ len in
  firstn (Z.to_nat k) a.

(** [a.filter(p)] *)
Definition Array_filter (p : A -> bool) (a : list A) : list A := List.filter p a.

(** [a.reduce(f, init)] *)
Definition reduce {B : Type} (f : B -> A -> B) (init : B) (a : list A) : B :=
  fold_left f a init.

(** [a.sort(compareFn)].  The comparator returns a negative number when
    its first argument goes first, a positive one when its second does,
    and zero to leave the two in their order: the sort is stable.  For a
    consistent comparator every stable sort yields the same array; it is
    written here as an insertion sort. *)
Fixpoint insert (compareFn : A -> A -> Z) (x : A) (sorted : list A) : list A :=
  match sorted with
  | [] => [x]
  | y :: rest =>
      if (compareFn x y <=? 0)%Z then x :: y :: rest
      else y :: insert compareFn x rest
  end.

Fixpoint Array_sort (compareFn : A -> A -> Z) (a : list A) : list A :=
  match a with
  | [] => []
  | x :: rest => insert compareFn x (Array_sort compareFn rest)
  end.

End Arrays.

(** The order a comparator asks for between neighbours. *)
Definition in_order {A : Type} (compareFn : A -> A -> Z) (a b : A) : Prop :=
  (compareFn a b <= 0)%Z.

(** A comparator is consistent when swapping its arguments flips the
    sign of its result and the order it induces is transitive. *)
Definition consistent_comparator {A : Type} (compareFn : A -> A -> Z) : Prop :=
  (forall a b, Z.sgn (compareFn b a) = (- Z.sgn (compareFn a b))%Z) /\
  (forall a b c, (compareFn a b <= 0)%Z -> (compareFn b c <= 0)%Z ->
                 (compareFn a c <= 0)%Z).

End JS.

Import IEEE754 JS.

(** ** The data model (page.tsx, lines 39 to 92) *)

Record AirPollutionData := {
  pm25 : Z;
  pm10 : Z;
  co : Q;
  co2 : Z;
  nox : Z;
  so2 : Z;
  o3 : Z;
  voc : Q;
  aqi : Z
}.

Record ParticleComposition := {
  organicCarbon : Q;
  blackCarbon : Q;
  sulfates : Q;
  nitrates : Q;
  metals : Q;
  dust : Q
}.

Record EmissionSource := {
  stacks : Z;
  vehicles : Z;
  processes : Z;
  fugitive : Z
}.

Record SeasonalVariation := {
  winter : Z;
  summer : Z;
  monsoon : Z
}.

Record Factory := {
  id : Z;
  name : string;
  lat : Q;
  lon : Q;
  state : string;
  industryType : string;
  products : string;
  yearEstablished : Z;
  employees : Z;
  pollution : AirPollutionData;
  particleComposition : ParticleComposition;
  emissionSources : EmissionSource;
  complianceScore : Z;
  violations : Z;
  healthImpactRadius : Q;
  populationAffected : Z;
  controlMeasures : list string;
  seasonalVariation : SeasonalVariation
}.

Module StateInfo.
Record t := { name : string; center : Q * Q; spread : Q }.
End StateInfo.

Module Industry.
Record t := { type : string; products : string }.
End Industry.

(** ** The generator (page.tsx, lines 100 to 206) *)

Definition states : list StateInfo.t :=
  let mk n x y s := StateInfo.Build_t n (lit x, lit y) (lit s) in
  [ mk "Uttarakhand"   (780322 # 10000) (300668 # 10000) (15 # 10);
    mk "Uttar Pradesh" (809462 # 10000) (268467 # 10000) (25 # 10);
    mk "Maharashtra"   (757139 # 10000) (197515 # 10000) (25 # 10);
    mk "Gujarat"       (711924 # 10000) (222587 # 10000) 2;
    mk "West Bengal"   (883639 # 10000) (225726 # 10000) (18 # 10);
    mk "Karnataka"     (775946 # 10000) (153173 # 10000) (22 # 10);
    mk "Tamil Nadu"    (786569 # 10000) (111271 # 10000) 2;
    mk "Rajasthan"     (742179 # 10000) (270238 # 10000) (25 # 10);
    mk "Punjab"        (753412 # 10000) (311471 # 10000) (15 # 10);
    mk "Haryana"       (760856 # 10000) (290588 # 10000) (13 # 10) ]%Q%string.

Definition industryTypes : list Industry.t :=
  [ Industry.Build_t "Steel Manufacturing" "Steel alloys, reinforced bars, structural steel";
    Industry.Build_t "Cement Production" "Portland cement, clinker, construction materials";
    Industry.Build_t "Chemical Processing" "Industrial chemicals, solvents, acids";
    Industry.Build_t "Thermal Power" "Electricity generation from coal combustion";
    Industry.Build_t "Oil Refinery" "Refined petroleum, diesel, lubricants";
    Industry.Build_t "Pharmaceutical" "API manufacturing, bulk drugs, formulations";
    Industry.Build_t "Textile Dyeing" "Dyed fabrics, processed textiles";
    Industry.Build_t "Fertilizer Plant" "Nitrogen fertilizers, urea, ammonia";
    Industry.Build_t "Plastic Manufacturing" "Polymer products, plastic packaging";
    Industry.Build_t "Paper Mill" "Paper pulp, packaging materials";
    Industry.Build_t "Glass Manufacturing" "Float glass, container glass";
    Industry.Build_t "Aluminum Smelting" "Primary aluminum, alloys";
    Industry.Build_t "Battery Production" "Lead-acid batteries, lithium cells";
    Industry.Build_t "Paint Manufacturing" "Industrial paints, coatings";
    Industry.Build_t "Brick Kiln" "Clay bricks, construction materials" ]%string.

Definition controlMeasures_catalog : list string :=
  [ "Electrostatic Precipitators";
    "Bag Filters";
    "Scrubbers";
    "Catalytic Converters";
    "Cyclone Separators";
    "Carbon Adsorption";
    "Stack Height Optimization";
    "Continuous Emission Monitoring" ]%string.

(** A computation of the generator: it reads the calls of [Math.random]
    off an oracle, [cursor] counting the calls made so far, and fails
    with [None] where the source would raise a TypeError (a property read
    on [undefined]). *)
Definition Gen (A : Type) : Type := (nat -> Q) -> nat -> option (A * nat).

Definition ret {A} (a : A) : Gen A := fun _ cursor => Some (a, cursor).

Definition bind {A B} (m : Gen A) (k : A -> Gen B) : Gen B :=
  fun random cursor =>
    match m random cursor with
    | Some (a, cursor') => k a random cursor'
    | None => None
    end.

Notation "'let*' x ':=' m 'in' k" := (bind m (fun x => k))
  (at level 10, x name, m at level 100, k at level 200).

Definition Math_random : Gen Q :=
  fun random cursor => Some (random cursor, S cursor).

(** [e!] followed by a property read: [undefined] is a TypeError. *)
Definition defined {A} (o : option A) : Gen A :=
  fun _ cursor => match o with Some a => Some (a, cursor) | None => None end.

Definition run {A} (m : Gen A) (random : nat -> Q) : option A :=
  match m random O with
  | Some (a, _) => Some a
  | None => None
  end.

(** The body of the loop: the record pushed at index [i]. *)
Definition generateFactory (i : Z) : Gen Factory :=
  let* r := Math_random in
  let* state := defined (at_index states
                  (Math_floor (mul r (inject_Z (Z.of_nat (List.length states)))))) in
  let* r := Math_random in
  let lat := add (snd (StateInfo.center state))
                 (mul (sub r (lit (5 # 10))) (StateInfo.spread state)) in
  let* r := Math_random in
  let lon := add (fst (StateInfo.center state))
                 (mul (sub r (lit (5 # 10))) (StateInfo.spread state)) in
  let* r := Math_random in
  let* industry := defined (at_index industryTypes
                     (Math_floor (mul r (inject_Z (Z.of_nat (List.length industryTypes)))))) in
  let* r := Math_random in
  let baseAQI := (Math_floor (mul r 450) + 50)%Z in
  let* r := Math_random in
  let pm25 := Math_floor (add (mul (inject_Z baseAQI) (lit (4 # 10))) (mul r 50)) in
  let* r := Math_random in
  let pm10 := Math_floor (add (mul (inject_Z pm25) (lit (18 # 10))) (mul r 30)) in
  let* r := Math_random in
  let yearEstablished := (Math_floor (mul r 45) + 1975)%Z in
  let* r := Math_random in
  let employees := (Math_floor (mul r 3000) + 200)%Z in
  let* r := Math_random in
  let co := parseFloat (toFixed (add (mul r 15) 2) 2) in
  let* r := Math_random in
  let co2 := Math_floor (add (mul r 800) 400) in
  let* r := Math_random in
  let nox := Math_floor (add (mul r 150) 30) in
  let* r := Math_random in
  let so2 := Math_floor (add (mul r 200) 40) in
  let* r := Math_random in
  let o3 := Math_floor (add (mul r 120) 20) in
  let* r := Math_random in
  let voc := parseFloat (toFixed (add (mul r 500) 100) 1) in
  let* r := Math_random in
  let organicCarbon := parseFloat (toFixed (add (mul r 30) 10) 1) in
  let* r := Math_random in
  let blackCarbon := parseFloat (toFixed (add (mul r 20) 5) 1) in
  let* r := Math_random in
  let sulfates := parseFloat (toFixed (add (mul r 25) 8) 1) in
  let* r := Math_random in
  let nitrates := parseFloat (toFixed (add (mul r 20) 6) 1) in
  let* r := Math_random in
  let metals := parseFloat (toFixed (add (mul r 10) 2) 1) in
  let* r := Math_random in
  let dust := parseFloat (toFixed (add (mul r 30) 15) 1) in
  let* r := Math_random in
  let stacks := Math_floor (add (mul r 50) 20) in
  let* r := Math_random in
  let vehicles := Math_floor (add (mul r 30) 10) in
  let* r := Math_random in
  let processes := Math_floor (add (mul r 40) 15) in
  let* r := Math_random in
  let fugitive := Math_floor (add (mul r 25) 5) in
  let* r := Math_random in
  let complianceScore := Math_floor (mul r 100) in
  let* r := Math_random in
  let violations := Math_floor (mul r 15) in
  let* r := Math_random in
  let healthImpactRadius := parseFloat (toFixed (add (mul r 8) 2) 1) in
  let* r := Math_random in
  let populationAffected := Math_floor (add (mul r 100000) 10000) in
  let* r := Math_random in
  let controlMeasures :=
    slice0 controlMeasures_catalog (Math_floor (mul r 5) + 2)%Z in
  let* r := Math_random in
  let winter := Math_floor (add (mul r 40) 80) in
  let* r := Math_random in
  let summer := Math_floor (add (mul r 30) 60) in
  let* r := Math_random in
  let monsoon := Math_floor (add (mul r 25) 50) in
  ret {|
    id := i;
    name := String.append (split_first (Industry.type industry) " ")
              (String.append " Facility " (padStart (String_of i) 3 "0"));
    lat := parseFloat (toFixed lat 6);
    lon := parseFloat (toFixed lon 6);
    state := StateInfo.name state;
    industryType := Industry.type industry;
    products := Industry.products industry;
    yearEstablished := yearEstablished;
    employees := employees;
    pollution := {|
      pm25 := pm25; pm10 := pm10; co := co; co2 := co2; nox := nox;
      so2 := so2; o3 := o3; voc := voc; aqi := baseAQI |};
    particleComposition := {|
      organicCarbon := organicCarbon; blackCarbon := blackCarbon;
      sulfates := sulfates; nitrates := nitrates; metals := metals;
      dust := dust |};
    emissionSources := {|
      stacks := stacks; vehicles := vehicles; processes := processes;
      fugitive := fugitive |};
    complianceScore := complianceScore;
    violations := violations;
    healthImpactRadius := healthImpactRadius;
    populationAffected := populationAffected;
    controlMeasures := controlMeasures;
    seasonalVariation := {|
      winter := winter; summer := summer; monsoon := monsoon |}
  |}.

(** [for (let i = ...; i <= count; i++) factories.push(...)], with
    [iterations] passes of the loop left to run. *)
Fixpoint generateLoop (iterations : nat) (i : Z) (factories : list Factory)
  : Gen (list Factory) :=
  match iterations with
  | O => ret factories
  | S n =>
      let* f := generateFactory i in
      generateLoop n (i + 1) (factories ++ [f])
  end.

(** The generator with the bound of its loop as a parameter. *)
Definition generateFactoriesN (count : nat) (random : nat -> Q)
  : option (list Factory) :=
  run (generateLoop count 1 []) random.

(** [generateFactories]: the source fixes the bound to 300. *)
Definition generateFactories (random : nat -> Q) : option (list Factory) :=
  generateFactoriesN 300 random.

(** ** The filter and sort pipeline (page.tsx, lines 507 to 535) *)

(** The state of the filter controls of the page. *)
Record Criteria := {
  searchTerm : string;
  selectedState : string;
  selectedIndustry : string;
  aqiRange : Z * Z;
  sortBy : string;
  pollutantFilter : string
}.

(** [pollution[key]]: a property read by name; [None] is [undefined]. *)
Definition pollution_get (p : AirPollutionData) (key : string) : option Q :=
  if String.eqb key "pm25" then Some (inject_Z (pm25 p))
  else if String.eqb key "pm10" then Some (inject_Z (pm10 p))
  else if String.eqb key "co" then Some (co p)
  else if String.eqb key "co2" then Some (inject_Z (co2 p))
  else if String.eqb key "nox" then Some (inject_Z (nox p))
  else if String.eqb key "so2" then Some (inject_Z (so2 p))
  else if String.eqb key "o3" then Some (inject_Z (o3 p))
  else if String.eqb key "voc" then Some (voc p)
  else if String.eqb key "aqi" then Some (inject_Z (aqi p))
  else None.

(** [value > 0], false on [undefined]. *)
Definition greater_than_zero (value : option Q) : bool :=
  match value with
  | Some v => negb (Qle_bool v 0)
  | None => false
  end.

(** The predicate passed to [FACTORIES.filter]. *)
Definition matches (c : Criteria) (f : Factory) : bool :=
  let matchesSearch :=
    String.eqb (searchTerm c) EmptyString
    || includes (toLowerCase (name f)) (toLowerCase (searchTerm c))
    || includes (toLowerCase (state f)) (toLowerCase (searchTerm c))
    || includes (toLowerCase (industryType f)) (toLowerCase (searchTerm c)) in
  let matchesState :=
    String.eqb (selectedState c) "All" || String.eqb (state f) (selectedState c) in
  let matchesIndustry :=
    String.eqb (selectedIndustry c) "All"
    || String.eqb (industryType f) (selectedIndustry c) in
  let matchesAQI :=
    (fst (aqiRange c) <=? aqi (pollution f))
    && (aqi (pollution f) <=? snd (aqiRange c)) in
  let matchesPollutant :=
    if negb (String.eqb (pollutantFilter c) "all")
    then greater_than_zero (pollution_get (pollution f) (pollutantFilter c))
    else true in
  matchesSearch && matchesState && matchesIndustry && matchesAQI
  && matchesPollutant.

(** The comparator passed to [filtered.sort].  [localeCompare] is the
    collation of the host, a parameter of the model. *)
Definition compareFn (localeCompare : string -> string -> Z) (c : Criteria)
  (a b : Factory) : Z :=
  if String.eqb (sortBy c) "aqi" then aqi (pollution b) - aqi (pollution a)
  else if String.eqb (sortBy c) "name" then localeCompare (name a) (name b)
  else if String.eqb (sortBy c) "compliance"
       then complianceScore b - complianceScore a
  else if String.eqb (sortBy c) "population"
       then populationAffected b - populationAffected a
  else 0.

(** The array [filteredFactories] holds, as a function of the contents
    of [FACTORIES]. *)
Definition filteredFactories_of (localeCompare : string -> string -> Z)
  (FACTORIES : list Factory) (c : Criteria) : list Factory :=
  let filtered := Array_filter (matches c) FACTORIES in
  Array_sort (compareFn localeCompare c) filtered.

(** *** The same pipeline on a store of arrays

    [filter] allocates a new array; [sort] sorts the array it is called
    on in place and returns it. *)

Abbreviation ref := positive (only parsing).
Abbreviation heap := (gmap positive (list Factory)) (only parsing).

Definition heap_filter (a : ref) (p : Factory -> bool) (h : heap)
  : option (ref * heap) :=
  match h !! a with
  | Some contents =>
      let r := fresh (dom h) in Some (r, <[r := Array_filter p contents]> h)
  | None => None
  end.

Definition heap_sort (a : ref) (compareFn : Factory -> Factory -> Z) (h : heap)
  : option (ref * heap) :=
  match h !! a with
  | Some contents => Some (a, <[a := Array_sort compareFn contents]> h)
  | None => None
  end.

Definition filteredFactories (localeCompare : string -> string -> Z)
  (FACTORIES : ref) (c : Criteria) (h : heap) : option (ref * heap) :=
  match heap_filter FACTORIES (matches c) h with
  | Some (filtered, h1) =>
      match heap_sort filtered (compareFn localeCompare c) h1 with
      | Some (_, h2) => Some (filtered, h2)
      | None => None
      end
  | None => None
  end.

(** ** The aggregate statistics (page.tsx, lines 537 to 556) *)

(** The averages are [option]s: [None] stands for the NaN a division by
    zero would give. *)
Record Stats := {
  avgAQI : option Z;
  criticalCount : nat;
  totalPopulation : Q;
  avgCompliance : option Z;
  avgPM25 : option Z;
  totalViolations : Q
}.

Definition stats (isClient : bool) (filteredFactories : list Factory) : Stats :=
  if negb isClient then
    {| avgAQI := Some 0; criticalCount := 0; totalPopulation := 0;
       avgCompliance := Some 0; avgPM25 := Some 0; totalViolations := 0 |}
  else
    let length := List.length filteredFactories in
    let avgAQI :=
      if (0 <? length)%nat
      then option_map Math_round
             (div (reduce (fun sum f => add sum (inject_Z (aqi (pollution f))))
                          0%Q filteredFactories)
                  (inject_Z (Z.of_nat length)))
      else Some 0 in
    let criticalCount :=
      List.length
        (Array_filter (fun f => 300 <? aqi (pollution f)) filteredFactories) in
    let totalPopulation :=
      reduce (fun sum f => add sum (inject_Z (populationAffected f)))
             0%Q filteredFactories in
    let avgCompliance :=
      if (0 <? length)%nat
      then option_map Math_round
             (div (reduce (fun sum f => add sum (inject_Z (complianceScore f)))
                          0%Q filteredFactories)
                  (inject_Z (Z.of_nat length)))
      else Some 0 in
    let avgPM25 :=
      if (0 <? length)%nat
      then option_map Math_round
             (div (reduce (fun sum f => add sum (inject_Z (pm25 (pollution f))))
                          0%Q filteredFactories)
                  (inject_Z (Z.of_nat length)))
      else Some 0 in
    let totalViolations :=
      reduce (fun sum f => add sum (inject_Z (violations f)))
             0%Q filteredFactories in
    {| avgAQI := avgAQI; criticalCount := criticalCount;
       totalPopulation := totalPopulation; avgCompliance := avgCompliance;
       avgPM25 := avgPM25; totalViolations := totalViolations |}.


(** ** Inputs the statements are about *)

(** Every call of [Math.random] returns a double in [0, 1). *)
Definition valid_random (random : nat -> Q) : Prop :=
  forall i, is_random (random i) = true.

(** An oracle that cycles through five doubles, the last one the
    largest double below 1. *)
Definition sample_random (i : nat) : Q :=
  nth (i mod 5)
      [0; 1 # 2; 1 # 4; 255 # 256; 1 - (1 # 9007199254740992)]%Q 0%Q.

(** A collation: the order of the code units. *)
Definition codeunit_compare (a b : string) : Z :=
  match String.compare a b with
  | Eq => 0
  | Lt => -1
  | Gt => 1
  end.

(** A record with a given id, name and AQI. *)
Definition example_factory (i : Z) (n : string) (a : Z) : Factory := {|
  id := i;
  name := n;
  lat := 30;
  lon := 78;
  state := "Uttarakhand";
  industryType := "Steel Manufacturing";
  products := "Steel alloys, reinforced bars, structural steel";
  yearEstablished := 1990;
  employees := 500;
  pollution := {|
    pm25 := 60; pm10 := 110; co := 5; co2 := 700; nox := 90; so2 := 100;
    o3 := 60; voc := 250; aqi := a |};
  particleComposition := {|
    organicCarbon := 20; blackCarbon := 10; sulfates := 15; nitrates := 12;
    metals := 5; dust := 25 |};
  emissionSources := {|
    stacks := 40; vehicles := 20; processes := 30; fugitive := 10 |};
  complianceScore := 70;
  violations := 2;
  healthImpactRadius := 5;
  populationAffected := 50000;
  controlMeasures := ["Electrostatic Precipitators"; "Bag Filters"]%string;
  seasonalVariation := {| winter := 100; summer := 70; monsoon := 60 |}
|}.

(** Five records with the AQI values 450, 120, 310, 75 and 500. *)
Definition example_dataset : list Factory :=
  [ example_factory 1 "Steel Facility 001" 450;
    example_factory 2 "Cement Facility 002" 120;
    example_factory 3 "Brick Facility 003" 310;
    example_factory 4 "Paper Facility 004" 75;
    example_factory 5 "Glass Facility 005" 500 ].

(** The controls left as the page starts them, but for the AQI range
    and the sort key. *)
Definition example_criteria (range : Z * Z) (key : string) : Criteria := {|
  searchTerm := EmptyString;
  selectedState := "All";
  selectedIndustry := "All";
  aqiRange := range;
  sortBy := key;
  pollutantFilter := "all"
|}.

(** The keys of [AirPollutionData]: the eight pollutants, which are the
    options the pollutant select of the page offers besides "all", and
    the AQI. *)
Definition AirPollutionData_keys : list string :=
  [ "pm25"; "pm10"; "co"; "co2"; "nox"; "so2"; "o3"; "voc"; "aqi" ]%string.

(** [setPollutantFilter]: the criteria with another pollutant focus. *)
Definition setPollutantFilter (c : Criteria) (p : string) : Criteria := {|
  searchTerm := searchTerm c;
  selectedState := selectedState c;
  selectedIndustry := selectedIndustry c;
  aqiRange := aqiRange c;
  sortBy := sortBy c;
  pollutantFilter := p
|}.

(** What the generator guarantees of the record it pushes at index [i]. *)
Definition well_generated (i : Z) (f : Factory) : Prop :=
  id f = i /\
  50 <= aqi (pollution f) <= 499 /\
  20 <= pm25 (pollution f) <= 250 /\
  pm25 (pollution f) <= pm10 (pollution f) /\
  (2 <= co (pollution f))%Q /\
  400 <= co2 (pollution f) /\
  30 <= nox (pollution f) /\
  40 <= so2 (pollution f) /\
  20 <= o3 (pollution f) /\
  (100 <= voc (pollution f))%Q /\
  exists k : nat,
    (2 <= k <= 6)%nat /\
    controlMeasures f = firstn k controlMeasures_catalog.

(** The indices the loop runs through: [count] of them from [i]. *)
Definition indices (i : Z) (count : nat) : list Z :=
  List.map (fun k => i + Z.of_nat k) (seq 0 count).

(** * The rest of the page *)

(** ** Colours and categories (page.tsx, lines 491 to 505)

    The page calls these on the AQI of a record, on four times a PM2.5
    value and on averages; an average can be NaN, which is [None]. *)

(** [x > bound], false when [x] is NaN. *)
Definition greater (x : option Z) (bound : Z) : bool :=
  match x with
  | Some v => bound <? v
  | None => false
  end.

Definition getPollutionColor (aqi : option Z) : string :=
  if greater aqi 300 then "#dc2626"
  else if greater aqi 200 then "#f97316"
  else if greater aqi 100 then "#eab308"
  else "#22c55e".

Definition getAQICategory (aqi : option Z) : string :=
  if greater aqi 300 then "Hazardous"
  else if greater aqi 200 then "Very Unhealthy"
  else if greater aqi 150 then "Unhealthy"
  else if greater aqi 100 then "Unhealthy for Sensitive"
  else if greater aqi 50 then "Moderate"
  else "Good".

(** The rows of the "AQI Scale" legend (page.tsx, lines 1728 to 1734):
    colour, label, range. *)
Definition legend : list (string * string * string) :=
  [ ("#22c55e", "Good", "0-50");
    ("#eab308", "Moderate", "51-100");
    ("#f97316", "Unhealthy", "101-200");
    ("#dc2626", "Very Unhealthy", "201-300");
    ("#7f1d1d", "Hazardous", "300+") ]%string.

(** ** Marker icons (page.tsx, lines 253 to 259 and 305 to 320) *)

(** The local [severity] of [createMarkerIcon]. *)
Definition severity (aqi : Z) : string :=
  if 300 <? aqi then "severe"
  else if 200 <? aqi then "high"
  else if 100 <? aqi then "moderate"
  else "low".

(** The record [colors] of [createMarkerIcon], read by key; [None] is
    [undefined]. *)
Definition colors (key : string) : option string :=
  if String.eqb key "severe" then Some "#dc2626"%string
  else if String.eqb key "high" then Some "#f97316"%string
  else if String.eqb key "moderate" then Some "#eab308"%string
  else if String.eqb key "low" then Some "#22c55e"%string
  else None.

(** [colors[severity]], the background of the marker of a record. *)
Definition markerColor (factory : Factory) : option string :=
  colors (severity (aqi (pollution factory))).

(** The [size] that [updateMarkerSizes] gives every marker at a zoom
    level. *)
Definition updateMarkerSizes_size (zoom : Q) : Q :=
  (if Qle_bool 10 zoom then 20
   else if Qle_bool 8 zoom then 16
   else if Qle_bool 6 zoom then 14
   else 12)%Q.

(** The [size] of the icon [createMarkerIcon] builds. *)
Definition createMarkerIcon_size (zoom : Q) (isSelected : bool) : Q :=
  let size : Q :=
    (if Qle_bool 10 zoom then 20
     else if Qle_bool 8 zoom then 16
     else if Qle_bool 6 zoom then 14
     else 12)%Q in
  if isSelected then mul size (lit (15 # 10)) else size.

(** ** The options of the state and industry selects (page.tsx, lines
    558 and 559) *)

(** [new Set(a)] spread into an array: the first occurrence of each
    element, in order. *)
Definition Set_add (seen : list string) (x : string) : list string :=
  if existsb (String.eqb x) seen then seen else seen ++ [x].

Definition Set_of (a : list string) : list string := fold_left Set_add a [].

(** [a.sort()] on strings: without a comparator the order is that of
    the code units. *)
Definition sort_default (a : list string) : list string :=
  Array_sort codeunit_compare a.

Definition states_of (FACTORIES : list Factory) : list string :=
  sort_default (Set_of (List.map state FACTORIES)).

Definition industries_of (FACTORIES : list Factory) : list string :=
  sort_default (Set_of (List.map industryType FACTORIES)).

(** ** The dashboard (page.tsx, lines 1296 and 1328 to 1332) *)

(** "Top 10 Most Polluted Facilities" *)
Definition top10 (filteredFactories : list Factory) : list Factory :=
  slice0 filteredFactories 10.

(** A row of "State-wise Distribution": the count of the filtered
    records of the state and their average AQI.  The division is not
    guarded: the average is NaN, [None], when the count is zero. *)
Definition stateRow (filteredFactories : list Factory) (s : string)
  : nat * option Z :=
  let count :=
    List.length
      (Array_filter (fun f => String.eqb (state f) s) filteredFactories) in
  let avgAqi :=
    option_map Math_round
      (div (reduce (fun sum f => add sum (inject_Z (aqi (pollution f))))
                   0%Q
                   (Array_filter (fun f => String.eqb (state f) s)
                                 filteredFactories))
           (inject_Z (Z.of_nat count))) in
  (count, avgAqi).

(** ** The filter controls (page.tsx, lines 430 to 439, 699, 888, 914,
    940, 974, 991 and 1027 to 1034) *)

(** The values the controls start with. *)
Definition initial_criteria : Criteria := {|
  searchTerm := EmptyString;
  selectedState := "All";
  selectedIndustry := "All";
  aqiRange := (0, 500);
  sortBy := "aqi";
  pollutantFilter := "all"
|}.

(** An event of a control, with the value it carries; the slider carries
    the integer [parseInt] reads off its value. *)
Inductive Event :=
| SearchInput (value : string)
| StateSelect (value : string)
| IndustrySelect (value : string)
| PollutantSelect (value : string)
| AqiSlider (value : Z)
| SortSelect (value : string)
| ClearFilters.

(** The handlers of the controls. *)
Definition handle (c : Criteria) (e : Event) : Criteria :=
  match e with
  | SearchInput value =>
      {| searchTerm := value; selectedState := selectedState c;
         selectedIndustry := selectedIndustry c; aqiRange := aqiRange c;
         sortBy := sortBy c; pollutantFilter := pollutantFilter c |}
  | StateSelect value =>
      {| searchTerm := searchTerm c; selectedState := value;
         selectedIndustry := selectedIndustry c; aqiRange := aqiRange c;
         sortBy := sortBy c; pollutantFilter := pollutantFilter c |}
  | IndustrySelect value =>
      {| searchTerm := searchTerm c; selectedState := selectedState c;
         selectedIndustry := value; aqiRange := aqiRange c;
         sortBy := sortBy c; pollutantFilter := pollutantFilter c |}
  | PollutantSelect value =>
      {| searchTerm := searchTerm c; selectedState := selectedState c;
         selectedIndustry := selectedIndustry c; aqiRange := aqiRange c;
         sortBy := sortBy c; pollutantFilter := value |}
  | AqiSlider value =>
      {| searchTerm := searchTerm c; selectedState := selectedState c;
         selectedIndustry := selectedIndustry c;
         aqiRange := (fst (aqiRange c), value);
         sortBy := sortBy c; pollutantFilter := pollutantFilter c |}
  | SortSelect value =>
      {| searchTerm := searchTerm c; selectedState := selectedState c;
         selectedIndustry := selectedIndustry c; aqiRange := aqiRange c;
         sortBy := value; pollutantFilter := pollutantFilter c |}
  | ClearFilters =>
      {| searchTerm := EmptyString; selectedState := "All";
         selectedIndustry := "All"; aqiRange := (0, 500);
         sortBy := "aqi"; pollutantFilter := "all" |}
  end.

(** The criteria after a sequence of events, from the initial ones. *)
Definition after (events : list Event) : Criteria :=
  fold_left handle events initial_criteria.

(** The options of the sort select and of the pollutant select. *)
Definition sort_options : list string :=
  [ "aqi"; "name"; "compliance"; "population" ]%string.

Definition pollutant_options : list string :=
  [ "all"; "pm25"; "pm10"; "co"; "co2"; "nox"; "so2"; "o3"; "voc" ]%string.

(** What the browser guarantees of an event: a select carries one of its
    options, the slider an integer between its [min] and [max]. *)
Definition offered (FACTORIES : list Factory) (e : Event) : Prop :=
  match e with
  | SearchInput _ => True
  | StateSelect value => value = "All"%string \/ In value (states_of FACTORIES)
  | IndustrySelect value =>
      value = "All"%string \/ In value (industries_of FACTORIES)
  | PollutantSelect value => In value pollutant_options
  | AqiSlider value => 0 <= value <= 500
  | SortSelect value => In value sort_options
  | ClearFilters => True
  end.

(** ** Notions the statements use *)

(** The field a numeric sort key orders by, largest first. *)
Definition numeric_key (key : string) : option (Factory -> Z) :=
  if String.eqb key "aqi" then Some (fun f => aqi (pollution f))
  else if String.eqb key "compliance" then Some complianceScore
  else if String.eqb key "population" then Some populationAffected
  else None.

(** Two records the active comparator leaves in their order. *)
Definition tied (localeCompare : string -> string -> Z) (c : Criteria)
  (f g : Factory) : bool :=
  compareFn localeCompare c f g =? 0.



(** The ranges of the fields of a generated record, ends included. *)
Definition in_ranges (f : Factory) : Prop :=
  1975 <= yearEstablished f <= 2019 /\
  200 <= employees f <= 3199 /\
  (2 <= co (pollution f) <= 17)%Q /\
  400 <= co2 (pollution f) <= 1200 /\
  30 <= nox (pollution f) <= 179 /\
  40 <= so2 (pollution f) <= 239 /\
  20 <= o3 (pollution f) <= 140 /\
  (100 <= voc (pollution f) <= 600)%Q /\
  (10 <= organicCarbon (particleComposition f) <= 40)%Q /\
  (5 <= blackCarbon (particleComposition f) <= 25)%Q /\
  (8 <= sulfates (particleComposition f) <= 33)%Q /\
  (6 <= nitrates (particleComposition f) <= 26)%Q /\
  (2 <= metals (particleComposition f) <= 12)%Q /\
  (15 <= dust (particleComposition f) <= 45)%Q /\
  20 <= stacks (emissionSources f) <= 70 /\
  10 <= vehicles (emissionSources f) <= 40 /\
  15 <= processes (emissionSources f) <= 54 /\
  5 <= fugitive (emissionSources f) <= 29 /\
  0 <= complianceScore f <= 99 /\
  0 <= violations f <= 14 /\
  (2 <= healthImpactRadius f <= 10)%Q /\
  10000 <= populationAffected f <= 109999 /\
  80 <= winter (seasonalVariation f) <= 120 /\
  60 <= summer (seasonalVariation f) <= 90 /\
  50 <= monsoon (seasonalVariation f) <= 75.

(** A record lies within half the spread of a state, and the millionth
    [toFixed(6)] can add, of the centre of the state. *)
Definition near_centre (f : Factory) (st : StateInfo.t) : Prop :=
  let h := (StateInfo.spread st / 2 + (1 # 1000000))%Q in
  (snd (StateInfo.center st) - h <= lat f
   /\ lat f <= snd (StateInfo.center st) + h)%Q /\
  (fst (StateInfo.center st) - h <= lon f
   /\ lon f <= fst (StateInfo.center st) + h)%Q.

(** A record is made of an entry of each catalog: the state and the
    coordinates of one, the industry, the products and the first word of
    the name of the other. *)
Definition from_catalogs (f : Factory) : Prop :=
  exists st ind,
    In st states /\ In ind industryTypes /\
    state f = StateInfo.name st /\
    near_centre f st /\
    industryType f = Industry.type ind /\
    products f = Industry.products ind /\
    name f = String.append (split_first (Industry.type ind) " ")
               (String.append " Facility " (padStart (String_of (id f)) 3 "0")).
(** * Properties *)

(** Closed comparisons of rationals and closed tests are decided by
    evaluation. *)
Ltac by_compute := vm_compute; first [reflexivity | discriminate].

(** ** The rounding [fl] is monotone and fixes the doubles *)

Module IEEE754_facts.
Import IEEE754.
Local Open Scope Q_scope.

(** The rounding agrees with the doubles of a JavaScript engine:
    [0.1 + 0.2] is [0.30000000000000004], not [0.3]; a tie goes to the
    even neighbour; below the smallest subnormal a number rounds to 0. *)
Example fl_one_tenth : fl (1 # 10) = 3602879701896397 # 36028797018963968.
Proof. by_compute. Qed.

Example fl_sum_tenths :
  fl (fl (1 # 10) + fl (2 # 10)) = 1351079888211149 # 4503599627370496 /\
  fl (3 # 10) = 5404319552844595 # 18014398509481984.
Proof. split; by_compute. Qed.

Example fl_ties_to_even :
  fl (9007199254740993 # 1) = 9007199254740992 # 1 /\
  fl (9007199254740995 # 1) = 9007199254740996 # 1.
Proof. split; by_compute. Qed.

Example fl_underflow : fl (1 # 2 ^ 1075) = 0 /\ is_double (1 # 2 ^ 1074) = true.
Proof. split; by_compute. Qed.

Lemma pow2_pos e : 0 < 2 ^ e.
Proof. apply Qpower_0_lt. reflexivity. Qed.

Lemma pow2_add a b : 2 ^ (a + b) == 2 ^ a * 2 ^ b.
Proof. apply Qpower_plus. discriminate. Qed.

Lemma pow2_succ a : 2 ^ (a + 1) == 2 * 2 ^ a.
Proof. rewrite pow2_add. change (2 ^ 1) with 2. ring. Qed.

Lemma pow2_le a b : (a <= b)%Z -> 2 ^ a <= 2 ^ b.
Proof. intros H. apply Qpower_le_compat_l; [exact H | discriminate]. Qed.

Lemma pow2_lt a b : (a < b)%Z -> 2 ^ a < 2 ^ b.
Proof. intros H. apply Qpower_lt_compat_l; [exact H | reflexivity]. Qed.

Lemma pow2_inject a : (0 <= a)%Z -> inject_Z (2 ^ a) == 2 ^ a.
Proof. intros H. apply (Zpower_Qpower 2 a H). Qed.

Lemma Zlog2_Q n : (0 < n)%Z ->
  2 ^ Z.log2 n <= inject_Z n /\ inject_Z n < 2 ^ (Z.log2 n + 1).
Proof.
  intros Hn. destruct (Z.log2_spec n Hn) as [H1 H2].
  pose proof (Z.log2_nonneg n) as H0.
  split.
  - rewrite <- pow2_inject by exact H0. rewrite <- Zle_Qle. exact H1.
  - rewrite <- pow2_inject by lia. rewrite <- Zlt_Qlt.
    replace (Z.log2 n + 1)%Z with (Z.succ (Z.log2 n)) by lia. exact H2.
Qed.

Lemma ilog2_spec x : 0 < x -> 2 ^ ilog2 x <= x /\ x < 2 ^ (ilog2 x + 1).
Proof.
  intros Hx. unfold ilog2.
  destruct x as [n d]. 
  assert (Hn : (0 < n)%Z).
  { unfold Qlt in Hx. simpl in Hx. lia. }
  destruct (Zlog2_Q n Hn) as [Hn1 Hn2].
  destruct (Zlog2_Q (Zpos d) (Pos2Z.is_pos d)) as [Hd1 Hd2].
  cbn [Qnum Qden].
  set (a := Z.log2 n) in *. set (b := Z.log2 (Zpos d)) in *.
  assert (Hx' : n # d == inject_Z n / inject_Z (Zpos d)) by apply Qmake_Qdiv.
  assert (HD : 0 < inject_Z (Zpos d)) by (rewrite <- (Zlt_Qlt 0); apply Pos2Z.is_pos).
  pose proof (pow2_pos a) as Pa. pose proof (pow2_pos b) as Pb.
  rewrite pow2_succ in Hn2, Hd2.
  assert (Hlo : 2 ^ (a - b - 1) <= n # d).
  { rewrite Hx'. apply Qle_shift_div_l; [exact HD|].
    replace (a - b - 1)%Z with (a + - (b + 1))%Z by lia.
    rewrite pow2_add, Qpower_opp, pow2_succ.
    assert (K : inject_Z (Zpos d) / (2 * 2 ^ b) <= 1).
    { apply Qle_shift_div_r; [lra | lra]. }
    unfold Qdiv in K.
    set (t := / (2 * 2 ^ b)) in *.
    generalize dependent (inject_Z (Z.pos d)). generalize dependent (inject_Z n).
    generalize dependent (2 ^ a). intros; nra. }
  assert (Hhi : n # d < 2 ^ (a - b + 1)).
  { rewrite Hx'. apply Qlt_shift_div_r; [exact HD|].
    replace (a - b + 1)%Z with ((a + 1) + - b)%Z by lia.
    rewrite pow2_add, Qpower_opp, pow2_succ.
    assert (K : 1 <= inject_Z (Zpos d) / 2 ^ b).
    { apply Qle_shift_div_l; [lra | lra]. }
    unfold Qdiv in K.
    set (t := / 2 ^ b) in *.
    generalize dependent (inject_Z (Z.pos d)). generalize dependent (inject_Z n).
    generalize dependent (2 ^ a). intros; nra. }
  destruct (Qle_bool (2 ^ (a - b)) (n # d)) eqn:E.
  - apply Qle_bool_iff in E. split; [exact E | exact Hhi].
  - split.
    + exact Hlo.
    + replace (a - b - 1 + 1)%Z with (a - b)%Z by lia.
      apply Qnot_le_lt. intros C. apply Qle_bool_iff in C. congruence.
Qed.

Lemma ilog2_unique x e : 2 ^ e <= x -> x < 2 ^ (e + 1) -> ilog2 x = e.
Proof.
  intros H1 H2.
  assert (Hx : 0 < x) by (eapply Qlt_le_trans; [apply (pow2_pos e) | exact H1]).
  destruct (ilog2_spec x Hx) as [S1 S2].
  assert (A : (e < ilog2 x + 1)%Z).
  { apply Qpower_lt_compat_l_inv with (q := 2); [| reflexivity].
    eapply Qle_lt_trans; eassumption. }
  assert (B : (ilog2 x < e + 1)%Z).
  { apply Qpower_lt_compat_l_inv with (q := 2); [| reflexivity].
    eapply Qle_lt_trans; eassumption. }
  lia.
Qed.

Lemma ilog2_mono x y : 0 < x -> x <= y -> (ilog2 x <= ilog2 y)%Z.
Proof.
  intros Hx Hxy.
  assert (Hy : 0 < y) by (eapply Qlt_le_trans; eassumption).
  destruct (ilog2_spec x Hx) as [X1 X2]. destruct (ilog2_spec y Hy) as [Y1 Y2].
  assert (A : (ilog2 x < ilog2 y + 1)%Z).
  { apply Qpower_lt_compat_l_inv with (q := 2); [| reflexivity].
    eapply Qle_lt_trans; [exact X1|]. eapply Qle_lt_trans; eassumption. }
  lia.
Qed.

Lemma rne_floor m : (Qfloor m <= rne m <= Qfloor m + 1)%Z.
Proof.
  unfold rne. destruct (Qcompare _ _); [destruct (Z.even _)| |]; lia.
Qed.

Lemma rne_Z z : rne (inject_Z z) = z.
Proof.
  unfold rne. rewrite Qfloor_Z.
  assert (E : inject_Z z - inject_Z z == 0) by ring.
  rewrite E. reflexivity.
Qed.

Lemma rne_mono m m' : m <= m' -> (rne m <= rne m')%Z.
Proof.
  intros H.
  pose proof (Qfloor_resp_le _ _ H) as Hf.
  pose proof (rne_floor m) as B. pose proof (rne_floor m') as B'.
  destruct (Z.eq_dec (Qfloor m) (Qfloor m')) as [E|NE]; [| lia].
  unfold rne in *. rewrite <- E in *. clear B B' Hf E.
  set (k := Qfloor m) in *.
  destruct (Qcompare_spec (m - inject_Z k) (1 # 2)) as [C|C|C];
  destruct (Qcompare_spec (m' - inject_Z k) (1 # 2)) as [C'|C'|C'];
  try (destruct (Z.even k)); try lia; exfalso; lra.
Qed.

Lemma rne_le m b : m <= inject_Z b -> (rne m <= b)%Z.
Proof. intros H. rewrite <- (rne_Z b). apply rne_mono, H. Qed.

Lemma rne_ge m a : inject_Z a <= m -> (a <= rne m)%Z.
Proof. intros H. rewrite <- (rne_Z a). apply rne_mono, H. Qed.

#[global] Instance rne_comp : Proper (Qeq ==> eq) rne.
Proof.
  intros x y E. unfold rne. rewrite (Qfloor_comp x y E).
  assert (E' : x - inject_Z (Qfloor y) == y - inject_Z (Qfloor y)) by (rewrite E; reflexivity).
  rewrite (Qcompare_comp _ _ E' (1 # 2) (1 # 2) (Qeq_refl _)). reflexivity.
Qed.

Lemma ilog2_comp x y : 0 < x -> x == y -> ilog2 x = ilog2 y.
Proof.
  intros Hx E. symmetry. destruct (ilog2_spec x Hx) as [A B].
  apply ilog2_unique; rewrite <- E; assumption.
Qed.

Lemma fl_pos_ge x z :
  inject_Z z * 2 ^ quantum x <= x -> inject_Z z * 2 ^ quantum x <= fl_pos x.
Proof.
  intros H. unfold fl_pos. pose proof (pow2_pos (quantum x)) as P.
  apply Qmult_le_compat_r; [| lra].
  rewrite <- Zle_Qle. apply rne_ge. apply Qle_shift_div_l; assumption.
Qed.

Lemma fl_pos_le x z :
  x <= inject_Z z * 2 ^ quantum x -> fl_pos x <= inject_Z z * 2 ^ quantum x.
Proof.
  intros H. unfold fl_pos. pose proof (pow2_pos (quantum x)) as P.
  apply Qmult_le_compat_r; [| lra].
  rewrite <- Zle_Qle. apply rne_le. apply Qle_shift_div_r; assumption.
Qed.

Lemma pow2_split k q : (q <= k)%Z -> 2 ^ k == inject_Z (2 ^ (k - q)) * 2 ^ q.
Proof.
  intros H. rewrite pow2_inject by lia. rewrite <- pow2_add.
  replace (k - q + q)%Z with k by lia. reflexivity.
Qed.

Lemma fl_pos_ge_pow x k : (quantum x <= k)%Z -> 2 ^ k <= x -> 2 ^ k <= fl_pos x.
Proof.
  intros Hq H. rewrite (pow2_split k (quantum x) Hq) in *. apply fl_pos_ge, H.
Qed.

Lemma fl_pos_le_pow x k : (quantum x <= k)%Z -> x <= 2 ^ k -> fl_pos x <= 2 ^ k.
Proof.
  intros Hq H. rewrite (pow2_split k (quantum x) Hq) in *. apply fl_pos_le, H.
Qed.

Lemma fl_pos_nonneg x : 0 <= x -> 0 <= fl_pos x.
Proof.
  intros H. assert (E : 0 == inject_Z 0 * 2 ^ quantum x) by ring.
  rewrite E at 1. apply fl_pos_ge. rewrite <- E. exact H.
Qed.

Lemma quantum_mono x y : 0 < x -> x <= y -> (quantum x <= quantum y)%Z.
Proof.
  intros Hx H. unfold quantum. pose proof (ilog2_mono x y Hx H). lia.
Qed.

Lemma fl_pos_mono x y : 0 < x -> x <= y -> fl_pos x <= fl_pos y.
Proof.
  intros Hx H.
  assert (Hy : 0 < y) by (eapply Qlt_le_trans; eassumption).
  pose proof (quantum_mono x y Hx H) as Hq.
  destruct (Z.eq_dec (quantum x) (quantum y)) as [E|NE].
  - unfold fl_pos. rewrite E. pose proof (pow2_pos (quantum y)) as P.
    apply Qmult_le_compat_r; [| lra].
    rewrite <- Zle_Qle. apply rne_mono.
    apply Qmult_le_compat_r; [exact H|]. apply Qlt_le_weak, Qinv_lt_0_compat, P.
  - destruct (ilog2_spec x Hx) as [X1 X2]. destruct (ilog2_spec y Hy) as [Y1 Y2].
    assert (Hlt : (ilog2 x < ilog2 y)%Z) by (unfold quantum in *; lia).
    apply Qle_trans with (2 ^ ilog2 y).
    + apply fl_pos_le_pow; [unfold quantum in *; lia|].
      apply Qle_trans with (2 ^ (ilog2 x + 1)); [lra|]. apply pow2_le. lia.
    + apply fl_pos_ge_pow; [unfold quantum in *; lia | exact Y1].
Qed.

Lemma fl_pos_comp x y : 0 < x -> x == y -> fl_pos x == fl_pos y.
Proof.
  intros Hx E. unfold fl_pos, quantum. rewrite (ilog2_comp x y Hx E).
  set (q := Z.max _ _).
  assert (E' : x / 2 ^ q == y / 2 ^ q) by (rewrite E; reflexivity).
  rewrite (rne_comp _ _ E'). reflexivity.
Qed.

Lemma fl_comp x y : x == y -> fl x = fl y.
Proof. intros E. unfold fl. rewrite (Qred_complete x y E). reflexivity. Qed.

Lemma fl_gt0 x : 0 < x -> fl x == fl_pos x.
Proof.
  intros Hx. unfold fl.
  assert (G : Qcompare (Qred x) 0 = Gt).
  { rewrite (Qcompare_comp _ _ (Qred_correct x) 0 0 (Qeq_refl _)).
    apply Qgt_alt. exact Hx. }
  rewrite G, Qred_correct. apply fl_pos_comp; [| apply Qred_correct].
  rewrite Qred_correct. exact Hx.
Qed.

Lemma fl_lt0 x : x < 0 -> fl x == - fl_pos (- x).
Proof.
  intros Hx. unfold fl.
  assert (G : Qcompare (Qred x) 0 = Lt).
  { rewrite (Qcompare_comp _ _ (Qred_correct x) 0 0 (Qeq_refl _)).
    apply Qlt_alt. exact Hx. }
  rewrite G, Qred_correct. apply Qopp_comp. apply fl_pos_comp.
  - rewrite Qred_correct. lra.
  - rewrite Qred_correct. reflexivity.
Qed.

Lemma fl_eq0 x : x == 0 -> fl x == 0.
Proof. intros E. rewrite (fl_comp x 0 E). reflexivity. Qed.

Lemma fl_sign_cases x :
  (x < 0 /\ fl x == - fl_pos (- x) /\ fl x <= 0) \/
  (x == 0 /\ fl x == 0) \/
  (0 < x /\ fl x == fl_pos x /\ 0 <= fl x).
Proof.
  destruct (Q_dec x 0) as [[H|H]|H].
  - left. split; [exact H|]. split; [apply fl_lt0, H|].
    rewrite (fl_lt0 x H). pose proof (fl_pos_nonneg (- x)). lra.
  - right; right. split; [exact H|]. split; [apply fl_gt0, H|].
    rewrite (fl_gt0 x H). apply fl_pos_nonneg. lra.
  - right; left. split; [exact H | apply fl_eq0, H].
Qed.

Theorem fl_mono x y : x <= y -> fl x <= fl y.
Proof.
  intros H.
  destruct (fl_sign_cases x) as [(X & EX & SX)|[(X & EX)|(X & EX & SX)]];
  destruct (fl_sign_cases y) as [(Y & EY & SY)|[(Y & EY)|(Y & EY & SY)]];
  try lra.
  - rewrite EX, EY.
    assert (fl_pos (- y) <= fl_pos (- x)). { apply fl_pos_mono; lra. } lra.
  - rewrite EX, EY. apply fl_pos_mono; assumption.
Qed.

Lemma fl_ge a x : is_double a = true -> a <= x -> a <= fl x.
Proof.
  intros D H. apply Qeq_bool_iff in D. rewrite <- D. apply fl_mono, H.
Qed.

Lemma fl_le b x : is_double b = true -> x <= b -> fl x <= b.
Proof.
  intros D H. apply Qeq_bool_iff in D. rewrite <- D. apply fl_mono, H.
Qed.

Lemma double_lt_1 r : is_double r = true -> r < 1 -> r <= 1 - (1 # 9007199254740992).
Proof.
  intros D H. apply Qeq_bool_iff in D.
  destruct (Qlt_le_dec r (1 # 2)) as [S|L]; [lra|].
  assert (Hr : 0 < r) by lra.
  assert (E : ilog2 r = (-1)%Z) by (apply ilog2_unique; [exact L | exact H]).
  rewrite (fl_gt0 r Hr) in D. unfold fl_pos, quantum in D. rewrite E in D.
  change (Z.max (-1 - 52) (-1074)) with (-53)%Z in D.
  set (z := rne (r / 2 ^ (-53))) in *.
  assert (Hz : (z < 2 ^ 53)%Z).
  { rewrite Zlt_Qlt. apply Qmult_lt_r with (z := 2 ^ (-53)); [reflexivity|].
    rewrite D. eapply Qlt_le_trans; [exact H | discriminate]. }
  assert (Hz' : (z <= 2 ^ 53 - 1)%Z) by lia.
  rewrite <- D. rewrite Zle_Qle in Hz'.
  apply Qle_trans with (inject_Z (2 ^ 53 - 1) * 2 ^ (-53)).
  - apply Qmult_le_compat_r; [exact Hz' | discriminate].
  - discriminate.
Qed.

Lemma fl_pos_fixed x m : x == inject_Z m * 2 ^ quantum x -> fl_pos x == x.
Proof.
  intros E. unfold fl_pos. pose proof (pow2_pos (quantum x)) as P.
  assert (E' : x / 2 ^ quantum x == inject_Z m).
  { rewrite E at 1. field. lra. }
  rewrite (rne_comp _ _ E'), rne_Z. symmetry. exact E.
Qed.

(** The integers below [2 ^ 53] are doubles. *)
Lemma fl_inject_Z z :
  (0 <= z < 2 ^ 53)%Z -> fl (inject_Z z) == inject_Z z.
Proof.
  intros [H0 H53].
  destruct (Z.eq_dec z 0) as [->|Hz]; [reflexivity|].
  assert (Hpos : 0 < inject_Z z) by (rewrite <- (Zlt_Qlt 0); lia).
  rewrite (fl_gt0 _ Hpos).
  destruct (ilog2_spec _ Hpos) as [S1 _].
  assert (He : (ilog2 (inject_Z z) < 53)%Z).
  { apply Qpower_lt_compat_l_inv with (q := 2); [| reflexivity].
    eapply Qle_lt_trans; [exact S1|].
    rewrite <- pow2_inject by lia. rewrite <- Zlt_Qlt. exact H53. }
  set (q := quantum (inject_Z z)).
  assert (Hq : (q <= 0)%Z) by (unfold q, quantum; lia).
  apply fl_pos_fixed with (m := (z * 2 ^ (- q))%Z). fold q.
  rewrite inject_Z_mult, pow2_inject by lia.
  rewrite <- Qmult_assoc, <- pow2_add.
  replace (- q + q)%Z with 0%Z by lia. change (2 ^ 0) with 1. ring.
Qed.

End IEEE754_facts.

(** ** Bounds on the expressions of the generator *)

Module Bounds.
Import IEEE754 IEEE754_facts.
Local Open Scope Q_scope.

Example toFixed_examples :
  toFixed (lit (1005 # 1000)) 2 = 100 # 100 /\
  toFixed (5 # 2) 0 = 3 # 1 /\
  toFixed (- (5 # 2)) 0 = - (3 # 1).
Proof. repeat split; by_compute. Qed.

Example Math_round_examples :
  Math_round (5 # 2) = 3%Z /\ Math_round (- (5 # 2)) = (-2)%Z /\
  Math_round (505 # 3) = 168%Z.
Proof. repeat split; by_compute. Qed.

Example string_examples :
  toLowerCase "Uttar Pradesh" = "uttar pradesh"%string /\
  includes "steel facility 001" "fac" = true /\
  includes "steel facility 001" EmptyString = true /\
  includes "steel" "steal" = false /\
  split_first "Steel Manufacturing" " " = "Steel"%string /\
  padStart (String_of 7) 3 "0" = "007"%string /\
  padStart (String_of 300) 3 "0" = "300"%string.
Proof. repeat split; by_compute. Qed.

Lemma is_random_spec r :
  is_random r = true ->
  is_double r = true /\ 0 <= r /\ r <= 1 - (1 # 9007199254740992).
Proof.
  unfold is_random. intros H.
  apply andb_prop in H. destruct H as [H Hlt].
  apply andb_prop in H. destruct H as [Hd H0].
  apply Qle_bool_iff in H0.
  assert (H1 : r < 1).
  { apply Qnot_le_lt. intros C. apply Qle_bool_iff in C.
    rewrite C in Hlt. discriminate Hlt. }
  split; [exact Hd|]. split; [exact H0|]. apply double_lt_1; assumption.
Qed.

Lemma Math_floor_ge x (z : Z) : z # 1 <= x -> (z <= Math_floor x)%Z.
Proof.
  change (z # 1) with (inject_Z z). intros H. unfold Math_floor. rewrite <- (Qfloor_Z z).
  apply Qfloor_resp_le, H.
Qed.

Lemma Math_floor_lt x (z : Z) : x < z # 1 -> (Math_floor x < z)%Z.
Proof.
  change (z # 1) with (inject_Z z). intros H. unfold Math_floor. rewrite Zlt_Qlt.
  eapply Qle_lt_trans; [apply Qfloor_le | exact H].
Qed.

Lemma Math_floor_le x (z : Z) : x <= z # 1 -> (Math_floor x <= z)%Z.
Proof.
  change (z # 1) with (inject_Z z). intros H. unfold Math_floor. rewrite Zle_Qle.
  eapply Qle_trans; [apply Qfloor_le | exact H].
Qed.

(** [Math.random() * n] stays in [0, n): the product is rounded, and it
    is the rounding of the largest double below 1 times [n] that has to
    be below [n]. *)
Lemma mul_random_bounds r n :
  is_random r = true -> 0 <= n ->
  0 <= mul r n /\ mul r n <= fl ((1 - (1 # 9007199254740992)) * n).
Proof.
  intros Hr Hn. destruct (is_random_spec r Hr) as (_ & H0 & H1).
  unfold mul. split.
  - apply fl_ge; [reflexivity | nra].
  - apply fl_mono. nra.
Qed.

Lemma floor_mul_random r (n : Z) :
  is_random r = true -> (0 < n)%Z ->
  fl ((1 - (1 # 9007199254740992)) * inject_Z n) < inject_Z n ->
  (0 <= Math_floor (mul r (inject_Z n)) < n)%Z.
Proof.
  intros Hr Hn Hc.
  assert (Hn' : 0 <= inject_Z n) by (rewrite <- (Zle_Qle 0); lia).
  destruct (mul_random_bounds r _ Hr Hn') as [Hlo Hhi]. split.
  - apply (Math_floor_ge _ 0), Hlo.
  - apply Math_floor_lt. eapply Qle_lt_trans; eassumption.
Qed.

(** [Math.random() * n + c] is at least [c]. *)
Lemma add_mul_random_ge r n c :
  is_random r = true -> 0 <= n -> is_double c = true ->
  c <= add (mul r n) c.
Proof.
  intros Hr Hn Hc. destruct (mul_random_bounds r n Hr Hn) as [Hlo _].
  unfold add. apply fl_ge; [exact Hc | lra].
Qed.

Lemma floor_add_mul_random_ge r n (c : Z) :
  is_random r = true -> 0 <= n -> is_double (inject_Z c) = true ->
  (c <= Math_floor (add (mul r n) (inject_Z c)))%Z.
Proof.
  intros Hr Hn Hc. apply Math_floor_ge, add_mul_random_ge; assumption.
Qed.

(** [parseFloat(x.toFixed(digits))] is at least an integer [x] is at
    least. *)
Lemma parseFloat_toFixed_ge x digits (z : Z) :
  (0 <= z)%Z -> is_double (inject_Z z) = true -> inject_Z z <= x ->
  inject_Z z <= parseFloat (toFixed x digits).
Proof.
  intros Hz Hd Hx. unfold parseFloat. apply fl_ge; [exact Hd|].
  assert (H0 : 0 <= x).
  { eapply Qle_trans; [| exact Hx]. rewrite <- (Zle_Qle 0). exact Hz. }
  unfold toFixed. apply Qle_bool_iff in H0. rewrite H0.
  set (s := (10 ^ Z.of_nat digits)%Z).
  assert (Hs : (0 < s)%Z) by (apply Z.pow_pos_nonneg; lia).
  assert (Hs' : 0 < inject_Z s) by (rewrite <- (Zlt_Qlt 0); exact Hs).
  apply Qle_shift_div_l; [exact Hs'|].
  rewrite <- inject_Z_mult, <- Zle_Qle.
  apply (Math_floor_ge (x * inject_Z s + (1 # 2)) (z * s)).
  change (z * s # 1) with (inject_Z (z * s)). rewrite inject_Z_mult. nra.
Qed.

End Bounds.

(** ** [Array_sort] is a stable insertion sort *)

Section SortFacts.
Context {A : Type} (compareFn : A -> A -> Z).

Lemma insert_Permutation x l : Permutation (insert compareFn x l) (x :: l).
Proof.
  induction l as [|y l IH]; cbn [insert].
  - apply Permutation_refl.
  - destruct (compareFn x y <=? 0).
    + apply Permutation_refl.
    + eapply perm_trans; [apply perm_skip, IH | apply perm_swap].
Qed.

Lemma Array_sort_Permutation l : Permutation (Array_sort compareFn l) l.
Proof.
  induction l as [|x l IH]; cbn [Array_sort].
  - apply perm_nil.
  - eapply perm_trans; [apply insert_Permutation | apply perm_skip, IH].
Qed.

Lemma Array_sort_In x l : In x (Array_sort compareFn l) <-> In x l.
Proof.
  split; apply Permutation_in;
    [| apply Permutation_sym]; apply Array_sort_Permutation.
Qed.

Lemma Array_sort_Forall (P : A -> Prop) l :
  List.Forall P l -> List.Forall P (Array_sort compareFn l).
Proof.
  rewrite !List.Forall_forall. intros H x Hx. apply H, Array_sort_In, Hx.
Qed.

Lemma Array_sort_length l :
  List.length (Array_sort compareFn l) = List.length l.
Proof. apply Permutation_length, Array_sort_Permutation. Qed.

(** A list already in order is left as it is: the sort is stable. *)
Lemma Array_sort_Sorted_id l :
  Sorted (in_order compareFn) l -> Array_sort compareFn l = l.
Proof.
  induction 1 as [|x l Hs IH Hd]; cbn [Array_sort]; [reflexivity|].
  rewrite IH. destruct Hd as [|y l Hxy]; cbn [insert]; [reflexivity|].
  unfold in_order in Hxy. destruct (Z.leb_spec (compareFn x y) 0); [reflexivity | lia].
Qed.

Hypothesis compareFn_total :
  forall a b, 0 < compareFn a b -> compareFn b a <= 0.

Lemma insert_Sorted x l :
  Sorted (in_order compareFn) l -> Sorted (in_order compareFn) (insert compareFn x l).
Proof.
  induction 1 as [|y l Hs IH Hd]; cbn [insert].
  - repeat constructor.
  - destruct (Z.leb_spec (compareFn x y) 0) as [Hle|Hgt].
    + constructor; [constructor; assumption | constructor; exact Hle].
    + constructor; [exact IH|].
      destruct Hd as [|z l Hyz]; cbn [insert].
      * constructor. apply compareFn_total, Hgt.
      * destruct (compareFn x z <=? 0); constructor;
          [apply compareFn_total, Hgt | exact Hyz].
Qed.

Lemma Array_sort_Sorted l : Sorted (in_order compareFn) (Array_sort compareFn l).
Proof.
  induction l as [|x l IH]; cbn [Array_sort];
    [constructor | apply insert_Sorted, IH].
Qed.

Lemma Array_sort_idempotent l :
  Array_sort compareFn (Array_sort compareFn l) = Array_sort compareFn l.
Proof. apply Array_sort_Sorted_id, Array_sort_Sorted. Qed.

End SortFacts.

(** ** The filter and sort pipeline *)

Lemma filter_all_true {A} (p : A -> bool) l :
  List.Forall (fun x => p x = true) l -> List.filter p l = l.
Proof.
  induction 1 as [|x l Hx _ IH]; cbn [List.filter]; [reflexivity|].
  rewrite Hx, IH. reflexivity.
Qed.

Lemma filter_Forall_true {A} (p : A -> bool) l :
  List.Forall (fun x => p x = true) (List.filter p l).
Proof.
  apply List.Forall_forall. intros x Hx.
  apply List.filter_In in Hx. apply Hx.
Qed.

Section ComparatorFacts.
Variable localeCompare : string -> string -> Z.
Hypothesis localeCompare_consistent : consistent_comparator localeCompare.

Lemma compareFn_total c a b :
  0 < compareFn localeCompare c a b -> compareFn localeCompare c b a <= 0.
Proof.
  destruct localeCompare_consistent as [Hsym _].
  unfold compareFn. repeat destruct (String.eqb _ _); try lia.
  specialize (Hsym (name a) (name b)). lia.
Qed.

Lemma compareFn_trans c x y z :
  compareFn localeCompare c x y <= 0 -> compareFn localeCompare c y z <= 0 ->
  compareFn localeCompare c x z <= 0.
Proof.
  destruct localeCompare_consistent as [_ Htrans].
  unfold compareFn. repeat destruct (String.eqb _ _); try lia.
  apply Htrans.
Qed.

End ComparatorFacts.

Lemma codeunit_compare_consistent : consistent_comparator codeunit_compare.
Proof.
  split.
  - intros a b. unfold codeunit_compare.
    rewrite (String.compare_antisym a b).
    destruct (String.compare b a); reflexivity.
  - intros a b c. unfold codeunit_compare.
    destruct (String.compare a b) eqn:Eab; [| | lia];
    destruct (String.compare b c) eqn:Ebc; try lia; intros _ _.
    + apply String.compare_eq_iff in Eab, Ebc. subst.
      pose proof (proj2 (String_as_OT.cmp_eq c c) eq_refl) as Hcc.
      unfold String_as_OT.cmp in Hcc. rewrite Hcc. lia.
    + apply String.compare_eq_iff in Eab. subst. rewrite Ebc. lia.
    + apply String.compare_eq_iff in Ebc. subst. rewrite Eab. lia.
    + apply String_as_OT.cmp_lt in Eab, Ebc.
      pose proof (String_as_OT.lt_trans _ _ _ Eab Ebc) as Hac.
      apply String_as_OT.cmp_lt in Hac. unfold String_as_OT.cmp in Hac.
      rewrite Hac. lia.
Qed.

(** C4. Applying the pipeline to its own output with the same criteria
    returns that output: [apply (apply dataset c) c = apply dataset c],
    for every dataset and criteria, under a consistent collation. *)
Theorem filteredFactories_idempotent localeCompare dataset c :
  consistent_comparator localeCompare ->
  filteredFactories_of localeCompare
    (filteredFactories_of localeCompare dataset c) c
  = filteredFactories_of localeCompare dataset c.
Proof.
  intros Hc. unfold filteredFactories_of, Array_filter.
  rewrite (filter_all_true (matches c)).
  - apply Array_sort_idempotent. intros a b. apply compareFn_total, Hc.
  - apply Array_sort_Forall, filter_Forall_true.
Qed.

Lemma filteredFactories_idempotent_witness :
  consistent_comparator codeunit_compare /\
  filteredFactories_of codeunit_compare
    (filteredFactories_of codeunit_compare example_dataset
       (example_criteria (100, 400) "name"))
    (example_criteria (100, 400) "name")
  = filteredFactories_of codeunit_compare example_dataset
      (example_criteria (100, 400) "name").
Proof.
  split.
  - exact codeunit_compare_consistent.
  - apply (filteredFactories_idempotent codeunit_compare example_dataset
             (example_criteria (100, 400) "name")).
    exact codeunit_compare_consistent.
Defined.

(** C7. Every record the pipeline returns has its AQI inside the
    inclusive range of the criteria. *)
Theorem filteredFactories_aqi_in_range localeCompare dataset c :
  List.Forall
    (fun f => fst (aqiRange c) <= aqi (pollution f) <= snd (aqiRange c))
    (filteredFactories_of localeCompare dataset c).
Proof.
  unfold filteredFactories_of, Array_filter.
  apply Array_sort_Forall, List.Forall_forall. intros f Hf.
  apply List.filter_In in Hf. destruct Hf as [_ Hm].
  unfold matches in Hm. cbv zeta in Hm.
  repeat (apply andb_prop in Hm; destruct Hm as [Hm ?]).
  match goal with H : (_ <=? _) && (_ <=? _) = true |- _ =>
    apply andb_prop in H; destruct H as [Hlo Hhi] end.
  apply Z.leb_le in Hlo, Hhi. lia.
Qed.

(** C8. With the sort key "name" the output is non-decreasing under the
    collation: every record compares less than or equal to every record
    after it. *)
Theorem filteredFactories_sorted_by_name localeCompare dataset c :
  consistent_comparator localeCompare ->
  sortBy c = "name"%string ->
  StronglySorted (fun a b => localeCompare (name a) (name b) <= 0)
    (filteredFactories_of localeCompare dataset c).
Proof.
  intros Hc Hkey. unfold filteredFactories_of.
  set (l := Array_filter (matches c) dataset).
  assert (Hs : Sorted (in_order (compareFn localeCompare c))
                 (Array_sort (compareFn localeCompare c) l)).
  { apply Array_sort_Sorted. intros a b. apply compareFn_total, Hc. }
  apply Sorted_StronglySorted in Hs.
  - eapply StronglySorted_ind with (P := StronglySorted _); [ | | exact Hs].
    + constructor.
    + intros a l' _ IH Hall. constructor; [exact IH|].
      eapply List.Forall_impl; [| exact Hall].
      intros b Hab. unfold in_order, compareFn in Hab. rewrite Hkey in Hab.
      exact Hab.
  - intros x y z. unfold in_order. apply compareFn_trans, Hc.
Qed.

Lemma filteredFactories_sorted_by_name_witness :
  StronglySorted (fun a b => codeunit_compare (name a) (name b) <= 0)
    (filteredFactories_of codeunit_compare example_dataset
       (example_criteria (0, 500) "name")).
Proof.
  apply (filteredFactories_sorted_by_name codeunit_compare example_dataset
           (example_criteria (0, 500) "name")).
  - exact codeunit_compare_consistent.
  - reflexivity.
Defined.

(** C6. The pipeline leaves its input as it was: run on a store where
    [FACTORIES] holds [dataset], it returns a new array holding the
    filtered and sorted records, [FACTORIES] still holds [dataset]
    element for element, and no other array of the store has changed. *)
Theorem filteredFactories_keeps_input localeCompare (FACTORIES : ref) c
  (h : heap) dataset :
  h !! FACTORIES = Some dataset ->
  exists (filtered : ref) (h' : heap),
    filteredFactories localeCompare FACTORIES c h = Some (filtered, h') /\
    h' !! FACTORIES = Some dataset /\
    filtered <> FACTORIES /\
    h' !! filtered = Some (filteredFactories_of localeCompare dataset c) /\
    forall r : ref, r <> filtered -> h' !! r = h !! r.
Proof.
  intros Hd. unfold filteredFactories, heap_filter, heap_sort. rewrite Hd.
  set (r := fresh (dom h)).
  assert (Hfresh : h !! r = None).
  { apply not_elem_of_dom. apply is_fresh. }
  assert (Hne : r <> FACTORIES) by congruence.
  rewrite lookup_insert_eq.
  exists r. eexists. split; [reflexivity|].
  split; [| split; [exact Hne | split]].
  - rewrite !lookup_insert_ne by exact Hne. exact Hd.
  - rewrite lookup_insert_eq. reflexivity.
  - intros r' Hr'. rewrite !lookup_insert_ne by congruence. reflexivity.
Qed.

Lemma filteredFactories_keeps_input_witness :
  exists (filtered : ref) (h' : heap),
    filteredFactories codeunit_compare 1%positive
      (example_criteria (100, 400) "aqi") {[ 1%positive := example_dataset ]}
    = Some (filtered, h') /\
    h' !! 1%positive = Some example_dataset /\
    filtered <> 1%positive /\
    h' !! filtered
    = Some (filteredFactories_of codeunit_compare example_dataset
              (example_criteria (100, 400) "aqi")) /\
    forall r : ref,
      r <> filtered ->
      h' !! r = ({[ 1%positive := example_dataset ]} : heap) !! r.
Proof.
  apply (filteredFactories_keeps_input codeunit_compare 1%positive
           (example_criteria (100, 400) "aqi")
           {[ 1%positive := example_dataset ]} example_dataset).
  apply lookup_singleton_eq.
Defined.

(** ** The aggregate statistics *)

Lemma div_by_length sum n :
  (0 < n)%nat -> div sum (inject_Z (Z.of_nat n)) <> None.
Proof.
  intros Hn. unfold div.
  destruct (Qeq_bool (inject_Z (Z.of_nat n)) 0) eqn:E; [| discriminate].
  apply Qeq_bool_iff in E. unfold Qeq in E. cbn in E. lia.
Qed.

(** C2. On the empty sequence the statistics are all zero, whatever
    [isClient] is, and the count is zero; and the division by the count
    is guarded: on no input is an average the NaN of a division by
    zero. *)
Theorem stats_empty isClient :
  stats isClient [] =
    {| avgAQI := Some 0; criticalCount := 0; totalPopulation := 0;
       avgCompliance := Some 0; avgPM25 := Some 0; totalViolations := 0 |} /\
  List.length (@nil Factory) = 0%nat /\
  forall filtered,
    avgAQI (stats isClient filtered) <> None /\
    avgCompliance (stats isClient filtered) <> None /\
    avgPM25 (stats isClient filtered) <> None.
Proof.
  split; [destruct isClient; reflexivity|]. split; [reflexivity|].
  intros filtered. unfold stats.
  destruct isClient; cbn [negb avgAQI avgCompliance avgPM25];
    [| repeat split; discriminate].
  destruct (Nat.ltb_spec 0 (List.length filtered)) as [Hn|Hn];
    [| repeat split; discriminate].
  repeat split;
    match goal with |- option_map _ (div ?s _) <> None =>
      pose proof (div_by_length s _ Hn);
      destruct (div s _); [discriminate | congruence]
    end.
Qed.

Lemma reduce_add_map (g : Factory -> Z) l init :
  reduce (fun sum f => add sum (inject_Z (g f))) init l
  = fold_left (fun sum z => add sum (inject_Z z)) (List.map g l) init.
Proof.
  unfold reduce. revert init.
  induction l as [|f l IH]; intros init; cbn [fold_left List.map];
    [reflexivity | apply IH].
Qed.

Lemma matches_example range key f :
  matches (example_criteria range key) f
  = (fst range <=? aqi (pollution f)) && (aqi (pollution f) <=? snd range).
Proof.
  unfold matches, example_criteria.
  cbn [searchTerm selectedState selectedIndustry aqiRange pollutantFilter
       String.eqb Ascii.eqb Bool.eqb orb andb negb fst snd].
  apply andb_true_r.
Qed.

Lemma compareFn_aqi localeCompare range a b :
  compareFn localeCompare (example_criteria range "aqi") a b
  = aqi (pollution b) - aqi (pollution a).
Proof. reflexivity. Qed.

(** C1, as the code has it.  For five records with the AQI values 450,
    120, 310, 75 and 500, the range [100, 400] keeps the two records
    with AQI 120 and 310 (75 is below the range); sorted by "aqi" they
    come out as 310, 120; their average AQI is round(430 / 2) = 215 and
    one of them is critical. *)
Theorem example_end_to_end localeCompare dataset :
  List.map (fun f => aqi (pollution f)) dataset = [450; 120; 310; 75; 500] ->
  let out := filteredFactories_of localeCompare dataset
               (example_criteria (100, 400) "aqi") in
  List.map (fun f => aqi (pollution f)) out = [310; 120] /\
  avgAQI (stats true out) = Some 215 /\
  criticalCount (stats true out) = 1%nat.
Proof.
  intros H out.
  destruct dataset as [|f1 [|f2 [|f3 [|f4 [|f5 [|? ?]]]]]]; try discriminate H.
  cbn [List.map] in H. injection H as H1 H2 H3 H4 H5.
  assert (Hout : out = [f3; f2]).
  { unfold out, filteredFactories_of, Array_filter. cbn [List.filter].
    rewrite !matches_example, H1, H2, H3, H4, H5.
    cbn [fst snd Z.leb Z.compare Pos.compare Pos.compare_cont andb].
    cbn [Array_sort insert]. rewrite compareFn_aqi, H2, H3. reflexivity. }
  assert (Haqi : List.map (fun f => aqi (pollution f)) out = [310; 120]).
  { rewrite Hout. cbn [List.map]. rewrite H2, H3. reflexivity. }
  split; [exact Haqi|]. split.
  - unfold stats. cbn [negb avgAQI].
    rewrite (reduce_add_map (fun f => aqi (pollution f))), Haqi, Hout.
    by_compute.
  - unfold stats, Array_filter. cbn [negb criticalCount].
    rewrite Hout. cbn [List.filter]. rewrite H2, H3. reflexivity.
Qed.

Lemma example_end_to_end_witness :
  let out := filteredFactories_of codeunit_compare example_dataset
               (example_criteria (100, 400) "aqi") in
  List.map (fun f => aqi (pollution f)) out = [310; 120] /\
  avgAQI (stats true out) = Some 215 /\
  criticalCount (stats true out) = 1%nat.
Proof.
  apply (example_end_to_end codeunit_compare example_dataset). reflexivity.
Defined.

(** C1, as the specification words it, fails on the code: the pipeline
    does not return the records with AQI 310, 120 and 75, and the
    average is not 168. *)
Lemma stated_example_contradicted :
  let out := filteredFactories_of codeunit_compare example_dataset
               (example_criteria (100, 400) "aqi") in
  ~ (List.map (fun f => aqi (pollution f)) out = [310; 120; 75] /\
     avgAQI (stats true out) = Some 168 /\
     criticalCount (stats true out) = 1%nat).
Proof.
  intros out [H _]. vm_compute in H. discriminate H.
Qed.

(** ** The generator *)

Section Generator.
Import IEEE754_facts Bounds.
Variable random : nat -> Q.
Hypothesis random_valid : valid_random random.

Lemma at_index_random {A} (l : list A) r :
  is_random r = true ->
  (0 < Z.of_nat (List.length l)) ->
  (fl ((1 - (1 # 9007199254740992)) * inject_Z (Z.of_nat (List.length l)))
   < inject_Z (Z.of_nat (List.length l)))%Q ->
  exists a,
    at_index l (Math_floor (mul r (inject_Z (Z.of_nat (List.length l)))))
    = Some a.
Proof.
  intros Hr Hl Hc.
  destruct (floor_mul_random r _ Hr Hl Hc) as [Hlo Hhi].
  unfold at_index.
  destruct (Z.ltb_spec (Math_floor (mul r (inject_Z (Z.of_nat (List.length l))))) 0);
    [lia|].
  destruct (nth_error l (Z.to_nat _)) eqn:E; [eexists; reflexivity|].
  apply nth_error_None in E. lia.
Qed.

Lemma lit_04 : (lit (4 # 10) == 3602879701896397 # 9007199254740992)%Q.
Proof. by_compute. Qed.

Lemma lit_18 : (1 <= lit (18 # 10))%Q.
Proof. by_compute. Qed.

Lemma baseAQI_bounds r :
  is_random r = true -> 50 <= Math_floor (mul r 450) + 50 <= 499.
Proof.
  intros Hr.
  assert (H : (0 <= Math_floor (mul r (inject_Z 450)) < 450)%Z).
  { apply floor_mul_random; [exact Hr | lia | by_compute]. }
  change (inject_Z 450) with 450%Q in H. lia.
Qed.

Lemma pm25_bounds baseAQI r :
  is_random r = true -> 50 <= baseAQI <= 499 ->
  20 <= Math_floor (add (mul (inject_Z baseAQI) (lit (4 # 10))) (mul r 50))
     <= 250.
Proof.
  intros Hr [Hlo Hhi].
  rewrite Zle_Qle in Hlo, Hhi.
  change (inject_Z 50) with 50%Q in Hlo. change (inject_Z 499) with 499%Q in Hhi.
  destruct (mul_random_bounds r 50 Hr ltac:(by_compute)) as [B0 B1].
  assert (B2 : (mul r 50 <= 50)%Q).
  { eapply Qle_trans; [exact B1 | by_compute]. }
  assert (A0 : (20 <= mul (inject_Z baseAQI) (lit (4 # 10)))%Q).
  { unfold mul. apply fl_ge; [by_compute|]. rewrite lit_04. lra. }
  assert (A1 : (mul (inject_Z baseAQI) (lit (4 # 10)) <= 200)%Q).
  { unfold mul. apply fl_le; [by_compute|]. rewrite lit_04. lra. }
  split.
  - apply (Math_floor_ge _ 20). unfold add. apply fl_ge; [by_compute | lra].
  - apply (Math_floor_le _ 250). unfold add. apply fl_le; [by_compute | lra].
Qed.

Lemma pm10_ge_pm25 pm25 r :
  is_random r = true -> 0 <= pm25 <= 250 ->
  pm25 <= Math_floor (add (mul (inject_Z pm25) (lit (18 # 10))) (mul r 30)).
Proof.
  intros Hr [Hlo Hhi].
  assert (Hd : (fl (inject_Z pm25) == inject_Z pm25)%Q) by (apply fl_inject_Z; lia).
  rewrite Zle_Qle in Hlo. change (inject_Z 0) with 0%Q in Hlo.
  destruct (mul_random_bounds r 30 Hr ltac:(by_compute)) as [B0 _].
  pose proof lit_18 as K.
  assert (A : (inject_Z pm25 <= mul (inject_Z pm25) (lit (18 # 10)))%Q).
  { unfold mul. apply Qle_trans with (fl (inject_Z pm25)).
    - rewrite Hd. apply Qle_refl.
    - apply fl_mono. nra. }
  apply Math_floor_ge. change (pm25 # 1)%Q with (inject_Z pm25).
  unfold add. apply Qle_trans with (fl (inject_Z pm25)).
  - rewrite Hd. apply Qle_refl.
  - apply fl_mono. lra.
Qed.

Lemma controlMeasures_prefix r :
  is_random r = true ->
  exists k : nat,
    (2 <= k <= 6)%nat /\
    slice0 controlMeasures_catalog (Math_floor (mul r 5) + 2)
    = firstn k controlMeasures_catalog.
Proof.
  intros Hr.
  assert (H : (0 <= Math_floor (mul r (inject_Z 5)) < 5)%Z).
  { apply floor_mul_random; [exact Hr | lia | by_compute]. }
  change (inject_Z 5) with 5%Q in H.
  exists (Z.to_nat (Math_floor (mul r 5) + 2)). split; [lia|].
  unfold slice0. change (Z.of_nat (List.length controlMeasures_catalog)) with 8.
  destruct (Z.ltb_spec (Math_floor (mul r 5) + 2) 0); [lia|].
  rewrite Z.min_l by lia. reflexivity.
Qed.

Lemma generateFactory_spec i cursor :
  exists f,
    generateFactory i random cursor = Some (f, (cursor + 33)%nat) /\
    well_generated i f.
Proof.
  unfold generateFactory.
  cbv beta iota zeta delta [bind Math_random ret defined].
  destruct (at_index_random states (random cursor) (random_valid _))
    as [st Hst]; [reflexivity | by_compute |].
  rewrite Hst. cbv beta iota.
  destruct (at_index_random industryTypes (random (S (S (S cursor))))
              (random_valid _))
    as [ind Hind]; [reflexivity | by_compute |].
  rewrite Hind. cbv beta iota.
  eexists. split.
  { f_equal. f_equal. lia. }
  unfold well_generated.
  cbn [id pollution aqi pm25 pm10 co co2 nox so2 o3 voc controlMeasures].
  pose proof (baseAQI_bounds _ (random_valid (S (S (S (S cursor)))))) as Haqi.
  pose proof (pm25_bounds _ _ (random_valid (S (S (S (S (S cursor)))))) Haqi)
    as Hpm25.
  repeat match goal with |- _ /\ _ => split end.
  - reflexivity.
  - apply Haqi.
  - apply Haqi.
  - apply Hpm25.
  - apply Hpm25.
  - apply pm10_ge_pm25; [apply random_valid | lia].
  - apply (parseFloat_toFixed_ge _ _ 2); [lia | by_compute |].
    apply add_mul_random_ge; [apply random_valid | by_compute | by_compute].
  - apply (floor_add_mul_random_ge _ _ 400);
      [apply random_valid | by_compute | by_compute].
  - apply (floor_add_mul_random_ge _ _ 30);
      [apply random_valid | by_compute | by_compute].
  - apply (floor_add_mul_random_ge _ _ 40);
      [apply random_valid | by_compute | by_compute].
  - apply (floor_add_mul_random_ge _ _ 20);
      [apply random_valid | by_compute | by_compute].
  - apply (parseFloat_toFixed_ge _ _ 100); [lia | by_compute |].
    apply add_mul_random_ge; [apply random_valid | by_compute | by_compute].
  - apply controlMeasures_prefix, random_valid.
Qed.

(** The largest double below 1 reaches the upper end of a documented
    range: with it [Math.floor(Math.random() * 120 + 20)] is 140, the
    sum being rounded up to the integer. *)
Example o3_reaches_140 :
  Math_floor (add (mul (1 - (1 # 9007199254740992)) 120) 20) = 140.
Proof. by_compute. Qed.

Lemma indices_S i n : indices i (S n) = i :: indices (i + 1) n.
Proof.
  unfold indices. cbn [seq List.map]. f_equal; [lia|].
  rewrite <- seq_shift, List.map_map. apply List.map_ext. intros k. lia.
Qed.

Lemma generateLoop_spec n : forall i factories cursor,
  exists fs,
    generateLoop n i factories random cursor
    = Some (factories ++ fs, (cursor + 33 * n)%nat) /\
    Forall2 well_generated (indices i n) fs.
Proof.
  induction n as [|n IH]; intros i factories cursor.
  - exists []. split; [| constructor].
    cbn [generateLoop]. unfold ret. rewrite app_nil_r. do 2 f_equal. lia.
  - destruct (generateFactory_spec i cursor) as (f & Hf & Hw).
    destruct (IH (i + 1) (factories ++ [f]) (cursor + 33)%nat)
      as (fs & Hfs & Hall).
    exists (f :: fs). split.
    + cbn [generateLoop]. unfold bind. rewrite Hf, Hfs.
      rewrite <- app_assoc. do 2 f_equal. lia.
    + rewrite indices_S. constructor; assumption.
Qed.

Lemma generateFactoriesN_spec count :
  exists fs,
    generateFactoriesN count random = Some fs /\
    Forall2 well_generated (indices 1 count) fs.
Proof.
  destruct (generateLoop_spec count 1 [] 0%nat) as (fs & Hfs & Hall).
  exists fs. split; [| exact Hall].
  unfold generateFactoriesN, run. rewrite Hfs. reflexivity.
Qed.

End Generator.

Lemma Forall2_well_generated_Forall (P : Factory -> Prop) ids fs :
  Forall2 well_generated ids fs ->
  (forall i f, well_generated i f -> P f) ->
  List.Forall P fs.
Proof.
  intros H HP. induction H as [|i f ids fs Hw _ IH]; constructor;
    [exact (HP i f Hw) | exact IH].
Qed.

Lemma Forall2_well_generated_ids ids fs :
  Forall2 well_generated ids fs -> List.map id fs = ids.
Proof.
  induction 1 as [|i f ids fs Hw _ IH]; cbn [List.map]; [reflexivity|].
  destruct Hw as [-> _]. rewrite IH. reflexivity.
Qed.

Lemma indices_NoDup i n : NoDup (indices i n).
Proof.
  unfold indices. apply Finite.Injective_map_NoDup.
  - intros a b H. lia.
  - apply List.seq_NoDup.
Qed.

Lemma indices_range i n k : In k (indices i n) -> i <= k <= i + Z.of_nat n - 1.
Proof.
  unfold indices. rewrite List.in_map_iff. intros (j & <- & Hj).
  apply List.in_seq in Hj. lia.
Qed.

Lemma sample_random_valid : valid_random sample_random.
Proof.
  intros i. unfold sample_random.
  pose proof (Nat.mod_upper_bound i 5 ltac:(lia)) as H.
  destruct (i mod 5)%nat as [|[|[|[|[|k]]]]]; [by_compute .. | lia].
Qed.

(** The first record the generator pushes on the sample oracle. *)
Example generateFactories_sample :
  option_map
    (List.map (fun f => (id f, name f, state f, aqi (pollution f),
                         pm25 (pollution f), pm10 (pollution f),
                         List.length (controlMeasures f))))
    (generateFactoriesN 2 sample_random)
  = Some [ (1, "Brick Facility 001", "Uttarakhand", 499, 199, 373, 6%nat);
           (2, "Fertilizer Facility 002", "Haryana", 162, 114, 235, 3%nat) ]%string.
Proof. by_compute. Qed.

(** C5. For every count the generator returns a sequence, of exactly
    that length, whose ids are pairwise distinct and lie between 1 and
    the count; the source runs it with the count 300. *)
Theorem generateFactories_postcondition random count :
  valid_random random ->
  generateFactories random = generateFactoriesN 300 random /\
  exists fs,
    generateFactoriesN count random = Some fs /\
    List.length fs = count /\
    NoDup (List.map id fs) /\
    List.Forall (fun f => 1 <= id f <= Z.of_nat count) fs.
Proof.
  intros Hv. split; [unfold generateFactories; reflexivity|].
  destruct (generateFactoriesN_spec random Hv count) as (fs & Hfs & Hall).
  pose proof (Forall2_well_generated_ids _ _ Hall) as Hids.
  exists fs. split; [exact Hfs|]. split; [| split].
  - apply Forall2_length in Hall. rewrite <- Hall.
    unfold indices. rewrite List.length_map, List.length_seq. reflexivity.
  - rewrite Hids. apply indices_NoDup.
  - apply List.Forall_forall. intros f Hf.
    assert (Hin : In (id f) (indices 1 count)).
    { rewrite <- Hids. apply List.in_map, Hf. }
    apply indices_range in Hin. lia.
Qed.

Lemma generateFactories_postcondition_witness :
  generateFactories sample_random = generateFactoriesN 300 sample_random /\
  exists fs,
    generateFactoriesN 7 sample_random = Some fs /\
    List.length fs = 7%nat /\
    NoDup (List.map id fs) /\
    List.Forall (fun f => 1 <= id f <= Z.of_nat 7) fs.
Proof.
  apply (generateFactories_postcondition sample_random 7).
  exact sample_random_valid.
Defined.

(** C3, as the code has it.  PM10 is never below PM2.5: it is the floor
    of PM2.5 times 1.8 plus a noise term that is not negative.  Every
    generated record has [0 <= pm25 <= pm10]. *)
Theorem generated_pm10_ge_pm25 random :
  valid_random random ->
  exists fs,
    generateFactories random = Some fs /\
    List.Forall
      (fun f => 0 <= pm25 (pollution f) /\
                pm25 (pollution f) <= pm10 (pollution f))
      fs.
Proof.
  intros Hv.
  destruct (generateFactoriesN_spec random Hv 300) as (fs & Hfs & Hall).
  exists fs. split; [exact Hfs|].
  apply (Forall2_well_generated_Forall _ _ _ Hall).
  intros i f Hw. unfold well_generated in Hw. lia.
Qed.

Lemma generated_pm10_ge_pm25_witness :
  exists fs,
    generateFactories sample_random = Some fs /\
    List.Forall
      (fun f => 0 <= pm25 (pollution f) /\
                pm25 (pollution f) <= pm10 (pollution f))
      fs.
Proof.
  apply (generated_pm10_ge_pm25 sample_random). exact sample_random_valid.
Defined.

(** C3, as the specification words it, fails on the code: no choice of
    the random values makes the generator produce a record whose PM10 is
    below its PM2.5. *)
Lemma generated_pm10_lt_pm25_impossible :
  ~ exists random fs f,
      valid_random random /\
      generateFactories random = Some fs /\
      In f fs /\
      pm10 (pollution f) < pm25 (pollution f).
Proof.
  intros (random & fs & f & Hv & Hfs & Hin & Hlt).
  destruct (generateFactoriesN_spec random Hv 300) as (fs' & Hfs' & Hall).
  unfold generateFactories in Hfs. rewrite Hfs in Hfs'.
  injection Hfs' as <-.
  assert (H : List.Forall
                (fun f => pm25 (pollution f) <= pm10 (pollution f)) fs).
  { apply (Forall2_well_generated_Forall _ _ _ Hall).
    intros i g Hw. unfold well_generated in Hw. lia. }
  rewrite List.Forall_forall in H. specialize (H f Hin). lia.
Qed.

Lemma Qle_bool_pos_false q : (0 < q)%Q -> Qle_bool q 0 = false.
Proof.
  intros H. destruct (Qle_bool q 0) eqn:E; [| reflexivity].
  apply Qle_bool_iff in E. lra.
Qed.

Lemma pollutant_positive i f p :
  well_generated i f -> In p AirPollutionData_keys ->
  exists v, pollution_get (pollution f) p = Some v /\ (0 < v)%Q.
Proof.
  intros Hw Hp. unfold well_generated in Hw.
  destruct Hw as (_ & Haqi & Hpm25 & Hpm10 & Hco & Hco2 & Hnox & Hso2 & Ho3
                  & Hvoc & _).
  unfold AirPollutionData_keys in Hp. cbn [In] in Hp.
  repeat (destruct Hp as [<-|Hp]); [.. | contradiction];
    eexists; (split; [reflexivity|]);
    try (rewrite <- (Zlt_Qlt 0); lia); lra.
Qed.

Lemma matches_setPollutantFilter i f c p :
  well_generated i f -> In p AirPollutionData_keys ->
  matches (setPollutantFilter c p) f = matches (setPollutantFilter c "all") f.
Proof.
  intros Hw Hp.
  destruct (pollutant_positive i f p Hw Hp) as (v & Hv & Hpos).
  unfold matches.
  cbn [setPollutantFilter searchTerm selectedState selectedIndustry aqiRange
       pollutantFilter].
  rewrite Hv. cbn [greater_than_zero].
  rewrite (Qle_bool_pos_false v Hpos).
  change (negb (String.eqb "all" "all")) with false.
  cbn [negb]. destruct (negb (String.eqb p "all")); reflexivity.
Qed.

(** C9. In every generated record each pollutant concentration (and
    the AQI) is strictly positive, so on the generated dataset the
    pipeline returns the same sequence with the pollutant focus [p] as
    with the focus "all", the other criteria being the same. *)
Theorem pollutant_focus_is_identity random localeCompare c p :
  valid_random random ->
  In p AirPollutionData_keys ->
  exists fs,
    generateFactories random = Some fs /\
    List.Forall
      (fun f => exists v, pollution_get (pollution f) p = Some v /\ (0 < v)%Q)
      fs /\
    filteredFactories_of localeCompare fs (setPollutantFilter c p)
    = filteredFactories_of localeCompare fs (setPollutantFilter c "all").
Proof.
  intros Hv Hp.
  destruct (generateFactoriesN_spec random Hv 300) as (fs & Hfs & Hall).
  exists fs. split; [exact Hfs|]. split.
  - apply (Forall2_well_generated_Forall _ _ _ Hall).
    intros i f Hw. exact (pollutant_positive i f p Hw Hp).
  - unfold filteredFactories_of, Array_filter.
    assert (E : List.filter (matches (setPollutantFilter c p)) fs
                = List.filter (matches (setPollutantFilter c "all")) fs).
    { apply List.filter_ext_in. intros f Hf.
      assert (Hw : List.Forall (fun f => exists i, well_generated i f) fs).
      { apply (Forall2_well_generated_Forall _ _ _ Hall). intros i g Hg.
        exists i. exact Hg. }
      rewrite List.Forall_forall in Hw. destruct (Hw f Hf) as [i Hi].
      exact (matches_setPollutantFilter i f c p Hi Hp). }
    rewrite E. reflexivity.
Qed.

Lemma pollutant_focus_is_identity_witness :
  exists fs,
    generateFactories sample_random = Some fs /\
    List.Forall
      (fun f => exists v,
         pollution_get (pollution f) "pm10" = Some v /\ (0 < v)%Q)
      fs /\
    filteredFactories_of codeunit_compare fs
      (setPollutantFilter (example_criteria (100, 400) "aqi") "pm10")
    = filteredFactories_of codeunit_compare fs
        (setPollutantFilter (example_criteria (100, 400) "aqi") "all").
Proof.
  apply (pollutant_focus_is_identity sample_random codeunit_compare
           (example_criteria (100, 400) "aqi") "pm10").
  - exact sample_random_valid.
  - cbn [AirPollutionData_keys In]. right. left. reflexivity.
Defined.

(** C10. The control measures of every generated record are the first
    [k] entries of the catalog, in the order of the catalog, for a [k]
    between 2 and 6: a prefix, which begins with 'Electrostatic
    Precipitators'. *)
Theorem controlMeasures_is_prefix random :
  valid_random random ->
  exists fs,
    generateFactories random = Some fs /\
    List.Forall
      (fun f =>
         (exists k : nat,
            (2 <= k <= 6)%nat /\
            controlMeasures f = firstn k controlMeasures_catalog) /\
         hd_error (controlMeasures f) = Some "Electrostatic Precipitators"%string)
      fs.
Proof.
  intros Hv.
  destruct (generateFactoriesN_spec random Hv 300) as (fs & Hfs & Hall).
  exists fs. split; [exact Hfs|].
  apply (Forall2_well_generated_Forall _ _ _ Hall).
  intros i f Hw. unfold well_generated in Hw.
  destruct Hw as (_ & _ & _ & _ & _ & _ & _ & _ & _ & _ & k & Hk & E).
  split; [exists k; split; assumption|].
  rewrite E. destruct k as [|k]; [lia | reflexivity].
Qed.

Lemma controlMeasures_is_prefix_witness :
  exists fs,
    generateFactories sample_random = Some fs /\
    List.Forall
      (fun f =>
         (exists k : nat,
            (2 <= k <= 6)%nat /\
            controlMeasures f = firstn k controlMeasures_catalog) /\
         hd_error (controlMeasures f) = Some "Electrostatic Precipitators"%string)
      fs.
Proof.
  apply (controlMeasures_is_prefix sample_random). exact sample_random_valid.
Defined.

(** * Properties of the rest of the page *)

(** ** More on the stable sort *)

Section SortMore.
Context {A : Type} (compareFn : A -> A -> Z).
Hypothesis compareFn_total :
  forall a b, 0 < compareFn a b -> compareFn b a <= 0.
Hypothesis compareFn_trans :
  forall a b c, compareFn a b <= 0 -> compareFn b c <= 0 -> compareFn a c <= 0.

Lemma Array_sort_StronglySorted l :
  StronglySorted (in_order compareFn) (Array_sort compareFn l).
Proof.
  apply Sorted_StronglySorted.
  - intros x y z. apply compareFn_trans.
  - apply Array_sort_Sorted, compareFn_total.
Qed.

Lemma insert_first x l :
  List.Forall (in_order compareFn x) l -> insert compareFn x l = x :: l.
Proof.
  intros H. destruct H as [|y l Hy _]; cbn [insert]; [reflexivity|].
  unfold in_order in Hy. destruct (Z.leb_spec (compareFn x y) 0); [reflexivity | lia].
Qed.

Lemma Forall_filter (P : A -> Prop) (p : A -> bool) l :
  List.Forall P l -> List.Forall P (List.filter p l).
Proof.
  intros H. apply List.Forall_forall. intros z Hz.
  apply List.filter_In in Hz. rewrite List.Forall_forall in H. apply H, Hz.
Qed.

Lemma filter_insert (p : A -> bool) x s :
  StronglySorted (in_order compareFn) s ->
  List.filter p (insert compareFn x s)
  = if p x then insert compareFn x (List.filter p s) else List.filter p s.
Proof.
  induction 1 as [|y r Hr IH Hy]; cbn [insert].
  - cbn [List.filter]. destruct (p x); reflexivity.
  - destruct (Z.leb_spec (compareFn x y) 0) as [Hle|Hgt].
    + change (List.filter p (x :: y :: r))
        with (if p x then x :: List.filter p (y :: r)
              else List.filter p (y :: r)).
      destruct (p x) eqn:Px; [| reflexivity].
      symmetry. apply insert_first, Forall_filter.
      constructor; [exact Hle|].
      eapply List.Forall_impl; [| exact Hy].
      intros z Hz. exact (compareFn_trans _ _ _ Hle Hz).
    + cbn [List.filter]. rewrite IH.
      destruct (p y) eqn:Py, (p x) eqn:Px; try reflexivity.
      cbn [insert]. destruct (Z.leb_spec (compareFn x y) 0); [lia | reflexivity].
Qed.

(** Filtering commutes with sorting. *)
Lemma filter_Array_sort (p : A -> bool) l :
  List.filter p (Array_sort compareFn l)
  = Array_sort compareFn (List.filter p l).
Proof.
  induction l as [|x l IH]; cbn [Array_sort List.filter]; [reflexivity|].
  rewrite filter_insert by apply Array_sort_StronglySorted.
  rewrite IH. destruct (p x); reflexivity.
Qed.

Lemma filter_StronglySorted (p : A -> bool) l :
  StronglySorted (in_order compareFn) l ->
  StronglySorted (in_order compareFn) (List.filter p l).
Proof.
  induction 1 as [|x l Hl IH Hx]; cbn [List.filter]; [constructor|].
  destruct (p x); [| exact IH]. constructor; [exact IH|].
  apply List.Forall_forall. intros y Hy. apply List.filter_In in Hy.
  rewrite List.Forall_forall in Hx. apply Hx, Hy.
Qed.

End SortMore.

(** ** More on the filter and sort pipeline *)

Lemma Array_sort_ext {A} (f g : A -> A -> Z) l :
  (forall a b, f a b = g a b) -> Array_sort f l = Array_sort g l.
Proof.
  intros H. induction l as [|x l IH]; cbn [Array_sort]; [reflexivity|].
  rewrite IH. generalize (Array_sort g l). intros s.
  induction s as [|y s IHs]; cbn [insert]; [reflexivity|].
  rewrite H, IHs. reflexivity.
Qed.

Lemma filter_filter_andb {A} (p q : A -> bool) l :
  List.filter q (List.filter p l) = List.filter (fun x => p x && q x) l.
Proof.
  induction l as [|x l IH]; cbn [List.filter]; [reflexivity|].
  destruct (p x); cbn [List.filter andb]; rewrite IH; reflexivity.
Qed.

Lemma Sorted_of_all_related {A} (R : A -> A -> Prop) l :
  (forall a b, In a l -> In b l -> R a b) -> Sorted R l.
Proof.
  induction l as [|x l IH]; intros H; constructor.
  - apply IH. intros a b Ha Hb. apply H; right; assumption.
  - destruct l as [|y l]; constructor. apply H; [left | right; left]; reflexivity.
Qed.

Lemma compareFn_sgn localeCompare c a b :
  consistent_comparator localeCompare ->
  Z.sgn (compareFn localeCompare c b a)
  = - Z.sgn (compareFn localeCompare c a b).
Proof.
  intros [Hsym _]. unfold compareFn.
  repeat destruct (String.eqb _ _); try lia. apply Hsym.
Qed.

(** Away from the key "name" the comparator is a difference of integers
    and needs nothing of the collation. *)
Lemma compareFn_numeric localeCompare c :
  sortBy c <> "name"%string ->
  (forall a b, 0 < compareFn localeCompare c a b ->
               compareFn localeCompare c b a <= 0) /\
  (forall a b d, compareFn localeCompare c a b <= 0 ->
                 compareFn localeCompare c b d <= 0 ->
                 compareFn localeCompare c a d <= 0).
Proof.
  intros Hn. unfold compareFn.
  destruct (String.eqb_spec (sortBy c) "aqi"); [split; intros; lia|].
  destruct (String.eqb_spec (sortBy c) "name"); [contradiction|].
  destruct (String.eqb (sortBy c) "compliance"); [split; intros; lia|].
  destruct (String.eqb (sortBy c) "population"); split; intros; lia.
Qed.

Lemma compareFn_numeric_key localeCompare c k a b :
  numeric_key (sortBy c) = Some k ->
  compareFn localeCompare c a b = k b - k a /\ sortBy c <> "name"%string.
Proof.
  unfold numeric_key, compareFn.
  destruct (String.eqb_spec (sortBy c) "aqi") as [E|_].
  { intros [= <-]. split; [reflexivity | rewrite E; discriminate]. }
  destruct (String.eqb_spec (sortBy c) "name") as [E|Hn].
  { rewrite E. cbn. discriminate. }
  destruct (String.eqb (sortBy c) "compliance").
  { intros [= <-]. split; [reflexivity | exact Hn]. }
  destruct (String.eqb (sortBy c) "population"); [| discriminate].
  intros [= <-]. split; [reflexivity | exact Hn].
Qed.

Lemma filteredFactories_of_In localeCompare dataset c f :
  In f (filteredFactories_of localeCompare dataset c) <->
  In f dataset /\ matches c f = true.
Proof.
  unfold filteredFactories_of, Array_filter.
  rewrite Array_sort_In. apply List.filter_In.
Qed.

(** X1. The output holds exactly the records of the dataset that pass
    the predicate of the filter, each as often as the dataset holds it:
    it is a permutation of the filtered dataset, and never longer than
    the dataset. *)
Theorem filteredFactories_exact localeCompare dataset c :
  Permutation (filteredFactories_of localeCompare dataset c)
              (List.filter (matches c) dataset) /\
  (forall f, In f (filteredFactories_of localeCompare dataset c) <->
             In f dataset /\ matches c f = true) /\
  (List.length (filteredFactories_of localeCompare dataset c)
   <= List.length dataset)%nat.
Proof.
  split; [| split].
  - apply Array_sort_Permutation.
  - intros f. apply filteredFactories_of_In.
  - unfold filteredFactories_of, Array_filter.
    rewrite Array_sort_length. apply List.filter_length_le.
Qed.

(** X2. With a state selected, every record of the output is of that
    state. *)
Theorem filteredFactories_state localeCompare dataset c :
  selectedState c <> "All"%string ->
  List.Forall (fun f => state f = selectedState c)
              (filteredFactories_of localeCompare dataset c).
Proof.
  intros Hs. apply List.Forall_forall. intros f Hf.
  apply filteredFactories_of_In in Hf. destruct Hf as [_ Hm].
  unfold matches in Hm. cbv zeta in Hm.
  repeat (apply andb_prop in Hm; destruct Hm as [Hm ?]).
  match goal with H : String.eqb (selectedState c) _ || _ = true |- _ =>
    apply orb_prop in H; destruct H as [H|H]; apply String.eqb_eq in H end;
    [contradiction | assumption].
Qed.

Lemma filteredFactories_state_witness :
  List.Forall
    (fun f => state f
              = selectedState (handle initial_criteria (StateSelect "Uttarakhand")))
    (filteredFactories_of codeunit_compare example_dataset
       (handle initial_criteria (StateSelect "Uttarakhand"))).
Proof.
  apply (filteredFactories_state codeunit_compare example_dataset
           (handle initial_criteria (StateSelect "Uttarakhand"))).
  discriminate.
Defined.

(** X3. With an industry selected, every record of the output is of that
    industry. *)
Theorem filteredFactories_industry localeCompare dataset c :
  selectedIndustry c <> "All"%string ->
  List.Forall (fun f => industryType f = selectedIndustry c)
              (filteredFactories_of localeCompare dataset c).
Proof.
  intros Hs. apply List.Forall_forall. intros f Hf.
  apply filteredFactories_of_In in Hf. destruct Hf as [_ Hm].
  unfold matches in Hm. cbv zeta in Hm.
  repeat (apply andb_prop in Hm; destruct Hm as [Hm ?]).
  match goal with H : String.eqb (selectedIndustry c) _ || _ = true |- _ =>
    apply orb_prop in H; destruct H as [H|H]; apply String.eqb_eq in H end;
    [contradiction | assumption].
Qed.

Lemma filteredFactories_industry_witness :
  List.Forall
    (fun f => industryType f
              = selectedIndustry
                  (handle initial_criteria (IndustrySelect "Steel Manufacturing")))
    (filteredFactories_of codeunit_compare example_dataset
       (handle initial_criteria (IndustrySelect "Steel Manufacturing"))).
Proof.
  apply (filteredFactories_industry codeunit_compare example_dataset
           (handle initial_criteria (IndustrySelect "Steel Manufacturing"))).
  discriminate.
Defined.

Lemma toLowerCase_empty s : toLowerCase s = EmptyString <-> s = EmptyString.
Proof. destruct s; cbn [toLowerCase]; split; congruence. Qed.

Lemma matches_search_lower c s s' f :
  toLowerCase s = toLowerCase s' ->
  matches (handle c (SearchInput s)) f = matches (handle c (SearchInput s')) f.
Proof.
  intros E. unfold matches.
  cbn [handle searchTerm selectedState selectedIndustry aqiRange pollutantFilter].
  rewrite E.
  assert (Hempty : String.eqb s EmptyString = String.eqb s' EmptyString).
  { destruct (String.eqb_spec s EmptyString) as [->|Hs];
    destruct (String.eqb_spec s' EmptyString) as [->|Hs']; try reflexivity.
    - symmetry in E. apply (proj1 (toLowerCase_empty s')) in E. contradiction.
    - apply (proj1 (toLowerCase_empty s)) in E. contradiction. }
  rewrite Hempty. reflexivity.
Qed.

(** X4. The search does not see case: two search terms with the same
    lower-case form give the same output. *)
Theorem search_ignores_case localeCompare dataset c s s' :
  toLowerCase s = toLowerCase s' ->
  filteredFactories_of localeCompare dataset (handle c (SearchInput s))
  = filteredFactories_of localeCompare dataset (handle c (SearchInput s')).
Proof.
  intros E. unfold filteredFactories_of, Array_filter.
  rewrite (List.filter_ext _ _ (fun f => matches_search_lower c s s' f E)).
  reflexivity.
Qed.

Lemma search_ignores_case_witness :
  filteredFactories_of codeunit_compare example_dataset
    (handle initial_criteria (SearchInput "STEEL"))
  = filteredFactories_of codeunit_compare example_dataset
      (handle initial_criteria (SearchInput "steel")).
Proof.
  apply (search_ignores_case codeunit_compare example_dataset initial_criteria
           "STEEL" "steel").
  reflexivity.
Defined.

(** X5. With a search term, every record of the output holds the term,
    case ignored, in its name, its state or its industry. *)
Theorem search_sound localeCompare dataset c :
  searchTerm c <> EmptyString ->
  List.Forall
    (fun f =>
       includes (toLowerCase (name f)) (toLowerCase (searchTerm c)) = true \/
       includes (toLowerCase (state f)) (toLowerCase (searchTerm c)) = true \/
       includes (toLowerCase (industryType f)) (toLowerCase (searchTerm c))
       = true)
    (filteredFactories_of localeCompare dataset c).
Proof.
  intros Hs. apply List.Forall_forall. intros f Hf.
  apply filteredFactories_of_In in Hf. destruct Hf as [_ Hm].
  unfold matches in Hm. cbv zeta in Hm.
  repeat (apply andb_prop in Hm; destruct Hm as [Hm ?]).
  repeat (apply orb_prop in Hm; destruct Hm as [Hm|Hm]); auto.
  apply String.eqb_eq in Hm. contradiction.
Qed.

Lemma search_sound_witness :
  List.Forall
    (fun f =>
       includes (toLowerCase (name f)) (toLowerCase "Cement") = true \/
       includes (toLowerCase (state f)) (toLowerCase "Cement") = true \/
       includes (toLowerCase (industryType f)) (toLowerCase "Cement") = true)
    (filteredFactories_of codeunit_compare example_dataset
       (handle initial_criteria (SearchInput "Cement"))).
Proof.
  apply (search_sound codeunit_compare example_dataset
           (handle initial_criteria (SearchInput "Cement"))).
  discriminate.
Defined.

(** X6. With a numeric sort key ("aqi", "compliance" or "population")
    the output is in descending order of that field, whatever the
    collation. *)
Theorem filteredFactories_sorted_descending localeCompare dataset c k :
  numeric_key (sortBy c) = Some k ->
  StronglySorted (fun a b => k b <= k a)
    (filteredFactories_of localeCompare dataset c).
Proof.
  intros Hk. unfold filteredFactories_of.
  set (l := Array_filter (matches c) dataset).
  destruct (compareFn_numeric_key localeCompare c k
              (example_factory 0 EmptyString 0) (example_factory 0 EmptyString 0) Hk)
    as [_ Hn].
  destruct (compareFn_numeric localeCompare c Hn) as [Htot Htrans].
  pose proof (Array_sort_StronglySorted _ Htot Htrans l) as Hs.
  induction Hs as [|a l' _ IH Hall]; constructor; [exact IH|].
  eapply List.Forall_impl; [| exact Hall].
  intros b Hab. unfold in_order in Hab.
  destruct (compareFn_numeric_key localeCompare c k a b Hk) as [E _].
  rewrite E in Hab. lia.
Qed.

Lemma filteredFactories_sorted_descending_witness :
  StronglySorted (fun a b => aqi (pollution b) <= aqi (pollution a))
    (filteredFactories_of codeunit_compare example_dataset initial_criteria).
Proof.
  apply (filteredFactories_sorted_descending codeunit_compare example_dataset
           initial_criteria (fun f => aqi (pollution f))).
  reflexivity.
Defined.

Lemma compareFn_total_trans localeCompare c :
  consistent_comparator localeCompare ->
  (forall a b, 0 < compareFn localeCompare c a b ->
               compareFn localeCompare c b a <= 0) /\
  (forall a b d, compareFn localeCompare c a b <= 0 ->
                 compareFn localeCompare c b d <= 0 ->
                 compareFn localeCompare c a d <= 0).
Proof.
  intros Hc. split.
  - intros a b. apply compareFn_total, Hc.
  - intros a b d. apply compareFn_trans, Hc.
Qed.

(** X7. The sort is stable: the records the comparator ties with a
    record [f] come out in the order the dataset has them. *)
Theorem filteredFactories_stable localeCompare dataset c f :
  consistent_comparator localeCompare ->
  List.filter (tied localeCompare c f)
    (filteredFactories_of localeCompare dataset c)
  = List.filter (tied localeCompare c f) (List.filter (matches c) dataset).
Proof.
  intros Hc. destruct (compareFn_total_trans localeCompare c Hc) as [Htot Htrans].
  unfold filteredFactories_of, Array_filter.
  rewrite (filter_Array_sort _ Htot Htrans).
  apply Array_sort_Sorted_id, Sorted_of_all_related.
  intros a b Ha Hb. apply List.filter_In in Ha, Hb.
  destruct Ha as [_ Ha]. destruct Hb as [_ Hb].
  unfold tied in Ha, Hb. apply Z.eqb_eq in Ha, Hb.
  unfold in_order. apply (Htrans a f b); [| lia].
  pose proof (compareFn_sgn localeCompare c f a Hc) as Hsgn.
  rewrite Ha in Hsgn. cbn in Hsgn. lia.
Qed.

Lemma filteredFactories_stable_witness :
  List.filter (tied codeunit_compare initial_criteria (example_factory 9 "x" 120))
    (filteredFactories_of codeunit_compare (example_dataset ++ example_dataset)
       initial_criteria)
  = List.filter (tied codeunit_compare initial_criteria (example_factory 9 "x" 120))
      (List.filter (matches initial_criteria) (example_dataset ++ example_dataset)).
Proof.
  apply (filteredFactories_stable codeunit_compare
           (example_dataset ++ example_dataset) initial_criteria
           (example_factory 9 "x" 120)).
  exact codeunit_compare_consistent.
Defined.

(** X8. With a sort key that is none of the four, the comparator
    answers 0 and the output keeps the order of the dataset. *)
Theorem filteredFactories_unknown_key localeCompare dataset c :
  ~ In (sortBy c) sort_options ->
  filteredFactories_of localeCompare dataset c
  = List.filter (matches c) dataset.
Proof.
  intros Hk. unfold filteredFactories_of, Array_filter.
  apply Array_sort_Sorted_id, Sorted_of_all_related.
  intros a b _ _. unfold in_order, compareFn.
  unfold sort_options in Hk. cbn [In] in Hk.
  destruct (String.eqb_spec (sortBy c) "aqi") as [e|_];
    [exfalso; apply Hk; rewrite e; auto 10|].
  destruct (String.eqb_spec (sortBy c) "name") as [e|_];
    [exfalso; apply Hk; rewrite e; auto 10|].
  destruct (String.eqb_spec (sortBy c) "compliance") as [e|_];
    [exfalso; apply Hk; rewrite e; auto 10|].
  destruct (String.eqb_spec (sortBy c) "population") as [e|_];
    [exfalso; apply Hk; rewrite e; auto 10 | lia].
Qed.

Lemma filteredFactories_unknown_key_witness :
  filteredFactories_of codeunit_compare example_dataset
    (handle initial_criteria (SortSelect "id"))
  = List.filter (matches (handle initial_criteria (SortSelect "id")))
      example_dataset.
Proof.
  apply (filteredFactories_unknown_key codeunit_compare example_dataset
           (handle initial_criteria (SortSelect "id"))).
  cbn. intros [H|[H|[H|[H|[]]]]]; discriminate H.
Defined.

Lemma StronglySorted_firstn_skipn {A} (R : A -> A -> Prop) n l :
  StronglySorted R l ->
  List.Forall (fun a => List.Forall (R a) (skipn n l)) (firstn n l).
Proof.
  intros H. revert n. induction H as [|x l Hl IH Hx]; intros n.
  - rewrite firstn_nil. constructor.
  - destruct n as [|n]; cbn [firstn skipn]; constructor.
    + apply List.Forall_forall. intros b Hb.
      rewrite List.Forall_forall in Hx. apply Hx.
      rewrite <- (firstn_skipn n l). apply List.in_or_app. right. exact Hb.
    + apply IH.
Qed.

Lemma top10_firstn l : top10 l = firstn 10 l.
Proof.
  unfold top10, slice0. change (10 <? 0) with false. cbv iota.
  destruct (Z.le_gt_cases 10 (Z.of_nat (List.length l))) as [H|H].
  - rewrite Z.min_l by exact H. reflexivity.
  - rewrite Z.min_r by lia. rewrite Nat2Z.id.
    rewrite !firstn_all2 by lia. reflexivity.
Qed.

(** X9. Under the sort key "aqi" the panel "Top 10 Most Polluted
    Facilities" shows the first ten records of the output (all of them
    when there are fewer), and none of the records it leaves out has a
    higher AQI than one it shows. *)
Theorem top10_most_polluted localeCompare dataset c :
  sortBy c = "aqi"%string ->
  let out := filteredFactories_of localeCompare dataset c in
  out = top10 out ++ skipn 10 out /\
  List.length (top10 out) = Nat.min 10 (List.length out) /\
  List.Forall
    (fun shown =>
       List.Forall
         (fun left_out => aqi (pollution left_out) <= aqi (pollution shown))
         (skipn 10 out))
    (top10 out).
Proof.
  intros Hk out. rewrite !top10_firstn. split; [| split].
  - symmetry. apply firstn_skipn.
  - apply List.length_firstn.
  - apply StronglySorted_firstn_skipn.
    assert (Hn : sortBy c <> "name"%string) by (rewrite Hk; discriminate).
    destruct (compareFn_numeric localeCompare c Hn) as [Htot Htrans].
    pose proof (Array_sort_StronglySorted _ Htot Htrans
                  (Array_filter (matches c) dataset)) as Hs.
    fold (filteredFactories_of localeCompare dataset c) in Hs. fold out in Hs.
    induction Hs as [|a l' _ IH Hall]; constructor; [exact IH|].
    eapply List.Forall_impl; [| exact Hall].
    intros b Hab. unfold in_order, compareFn in Hab. rewrite Hk in Hab.
    cbn in Hab. lia.
Qed.

Lemma top10_most_polluted_witness :
  let out := filteredFactories_of codeunit_compare
               (example_dataset ++ example_dataset ++ example_dataset)
               initial_criteria in
  out = top10 out ++ skipn 10 out /\
  List.length (top10 out) = Nat.min 10 (List.length out) /\
  List.Forall
    (fun shown =>
       List.Forall
         (fun left_out => aqi (pollution left_out) <= aqi (pollution shown))
         (skipn 10 out))
    (top10 out).
Proof.
  apply (top10_most_polluted codeunit_compare
           (example_dataset ++ example_dataset ++ example_dataset)
           initial_criteria).
  reflexivity.
Defined.

Lemma pollution_get_unknown p key :
  ~ In key AirPollutionData_keys -> pollution_get p key = None.
Proof.
  intros Hk. unfold AirPollutionData_keys in Hk. cbn [In] in Hk.
  unfold pollution_get.
  repeat match goal with
  | |- context [String.eqb key ?k] =>
      destruct (String.eqb_spec key k) as [e|_];
        [exfalso; apply Hk; rewrite e; auto 20|]
  end.
  reflexivity.
Qed.

(** X10. A pollutant focus that is neither "all" nor a key of the
    pollution record reads [undefined], which is not above zero: the
    output is empty. *)
Theorem unknown_pollutant_focus_empties localeCompare dataset c :
  pollutantFilter c <> "all"%string ->
  ~ In (pollutantFilter c) AirPollutionData_keys ->
  filteredFactories_of localeCompare dataset c = [].
Proof.
  intros Hall Hk. unfold filteredFactories_of, Array_filter.
  assert (E : List.filter (matches c) dataset = []).
  { induction dataset as [|f l IH]; cbn [List.filter]; [reflexivity|].
    assert (Hm : matches c f = false).
    { unfold matches.
      rewrite (pollution_get_unknown (pollution f) _ Hk).
      destruct (String.eqb_spec (pollutantFilter c) "all"); [contradiction|].
      cbn [negb greater_than_zero]. apply andb_false_r. }
    rewrite Hm. exact IH. }
  rewrite E. reflexivity.
Qed.

Lemma unknown_pollutant_focus_empties_witness :
  filteredFactories_of codeunit_compare example_dataset
    (handle initial_criteria (PollutantSelect "All")) = [].
Proof.
  apply (unknown_pollutant_focus_empties codeunit_compare example_dataset
           (handle initial_criteria (PollutantSelect "All"))).
  - discriminate.
  - cbn. intros H. repeat (destruct H as [H|H]; [discriminate H|]). exact H.
Defined.

(** X11. Changing the filter but not the sort key, and applying the
    pipeline to the list already shown, only filters that list; the
    result is what the pipeline gives on the dataset for the two filters
    together. *)
Theorem filteredFactories_refine localeCompare dataset c1 c2 :
  consistent_comparator localeCompare ->
  sortBy c2 = sortBy c1 ->
  filteredFactories_of localeCompare
    (filteredFactories_of localeCompare dataset c1) c2
  = List.filter (matches c2) (filteredFactories_of localeCompare dataset c1) /\
  filteredFactories_of localeCompare
    (filteredFactories_of localeCompare dataset c1) c2
  = Array_sort (compareFn localeCompare c2)
      (List.filter (fun f => matches c1 f && matches c2 f) dataset).
Proof.
  intros Hc Hk.
  destruct (compareFn_total_trans localeCompare c2 Hc) as [Htot Htrans].
  assert (Hsame : Array_sort (compareFn localeCompare c1)
                    (List.filter (matches c1) dataset)
                  = Array_sort (compareFn localeCompare c2)
                      (List.filter (matches c1) dataset)).
  { apply Array_sort_ext. intros a b. unfold compareFn. rewrite Hk. reflexivity. }
  unfold filteredFactories_of, Array_filter. rewrite Hsame.
  rewrite (filter_Array_sort _ Htot Htrans).
  rewrite (Array_sort_idempotent _ Htot). split; [reflexivity|].
  rewrite filter_filter_andb. reflexivity.
Qed.

Lemma filteredFactories_refine_witness :
  filteredFactories_of codeunit_compare
    (filteredFactories_of codeunit_compare example_dataset initial_criteria)
    (handle initial_criteria (AqiSlider 400))
  = List.filter (matches (handle initial_criteria (AqiSlider 400)))
      (filteredFactories_of codeunit_compare example_dataset initial_criteria) /\
  filteredFactories_of codeunit_compare
    (filteredFactories_of codeunit_compare example_dataset initial_criteria)
    (handle initial_criteria (AqiSlider 400))
  = Array_sort
      (compareFn codeunit_compare (handle initial_criteria (AqiSlider 400)))
      (List.filter
         (fun f => matches initial_criteria f
                   && matches (handle initial_criteria (AqiSlider 400)) f)
         example_dataset).
Proof.
  apply (filteredFactories_refine codeunit_compare example_dataset
           initial_criteria (handle initial_criteria (AqiSlider 400))).
  - exact codeunit_compare_consistent.
  - reflexivity.
Defined.

(** ** More on the aggregate statistics *)

Section StatsMore.
Import IEEE754_facts Bounds.










End StatsMore.




(** ** Colours, categories and markers *)

(** X15. The colour of a marker is the colour [getPollutionColor] gives
    the AQI of its record: the lookup [colors[severity]] is never
    [undefined], and the two threshold chains agree. *)
Theorem markerColor_is_getPollutionColor f :
  markerColor f = Some (getPollutionColor (Some (aqi (pollution f)))).
Proof.
  unfold markerColor, severity, getPollutionColor, greater.
  repeat (destruct (_ <? aqi (pollution f)); try reflexivity).
Qed.

(** X16. Colour and category move together: red is "Hazardous", orange
    is "Very Unhealthy", yellow is "Unhealthy" or "Unhealthy for
    Sensitive", and green is "Moderate" or "Good"; a NaN is drawn green
    and called "Good". *)
Theorem colour_category_bands aqi :
  let colour := getPollutionColor aqi in
  let category := getAQICategory aqi in
  (colour = "#dc2626" <-> category = "Hazardous")%string /\
  (colour = "#f97316" <-> category = "Very Unhealthy")%string /\
  (colour = "#eab308" <->
   category = "Unhealthy" \/ category = "Unhealthy for Sensitive")%string /\
  (colour = "#22c55e" <-> category = "Moderate" \/ category = "Good")%string /\
  (aqi = None -> colour = "#22c55e" /\ category = "Good")%string.
Proof.
  destruct aqi as [a|].
  - cbv zeta. unfold getPollutionColor, getAQICategory, greater.
    destruct (Z.ltb_spec 300 a); [repeat split; intros; try discriminate;
      try reflexivity; intuition discriminate|].
    destruct (Z.ltb_spec 200 a); [repeat split; intros; try discriminate;
      try reflexivity; intuition discriminate|].
    destruct (Z.ltb_spec 150 a).
    { destruct (Z.ltb_spec 100 a); [| lia].
      repeat split; intros; try discriminate; try reflexivity;
        intuition discriminate. }
    destruct (Z.ltb_spec 100 a); [repeat split; intros; try discriminate;
      try reflexivity; intuition discriminate|].
    destruct (Z.ltb_spec 50 a); repeat split; intros; try discriminate;
      try reflexivity; intuition discriminate.
  - cbv. repeat split; intros; try discriminate; try reflexivity;
      intuition discriminate.
Qed.

(** X17. The legend of the map does not describe the colours drawn: no
    AQI is drawn in the colour the legend gives "Hazardous"; an AQI of 51
    to 100, "Moderate" in the legend, is drawn in the colour the legend
    gives "Good"; and an AQI above 300 is drawn in the colour the legend
    gives "Very Unhealthy". *)
Theorem legend_mismatch a :
  In ("#7f1d1d", "Hazardous", "300+")%string legend /\
  getPollutionColor a <> "#7f1d1d"%string /\
  In ("#22c55e", "Good", "0-50")%string legend /\
  (forall v, a = Some v -> 51 <= v <= 100 ->
             getPollutionColor a = "#22c55e"%string) /\
  In ("#dc2626", "Very Unhealthy", "201-300")%string legend /\
  (forall v, a = Some v -> 300 < v -> getPollutionColor a = "#dc2626"%string).
Proof.
  split; [cbn; tauto|]. split.
  { unfold getPollutionColor. repeat destruct (greater a _); discriminate. }
  split; [cbn; tauto|]. split.
  { intros v -> Hv. unfold getPollutionColor, greater.
    destruct (Z.ltb_spec 300 v); [lia|]. destruct (Z.ltb_spec 200 v); [lia|].
    destruct (Z.ltb_spec 100 v); [lia | reflexivity]. }
  split; [cbn; tauto|].
  intros v -> Hv. unfold getPollutionColor, greater.
  destruct (Z.ltb_spec 300 v); [reflexivity | lia].
Qed.

(** X18. Marker sizes.  At every zoom level [createMarkerIcon] gives a
    marker that is not selected the size [updateMarkerSizes] gives every
    marker, one of 12, 14, 16 and 20, and never smaller at a higher
    zoom; a selected marker is built one and a half times as large, so
    the resize on a zoom event, which knows no selection, brings it back
    to the common size. *)
Theorem marker_sizes zoom zoom' :
  createMarkerIcon_size zoom false = updateMarkerSizes_size zoom /\
  In (updateMarkerSizes_size zoom) [12; 14; 16; 20]%Q /\
  (createMarkerIcon_size zoom true
   == (3 # 2) * updateMarkerSizes_size zoom)%Q /\
  (updateMarkerSizes_size zoom < createMarkerIcon_size zoom true)%Q /\
  ((zoom <= zoom')%Q ->
   (updateMarkerSizes_size zoom <= updateMarkerSizes_size zoom')%Q).
Proof.
  split; [reflexivity|]. split; [| split; [| split]].
  - unfold updateMarkerSizes_size.
    repeat destruct (Qle_bool _ zoom); cbn [In]; auto 10.
  - unfold createMarkerIcon_size, updateMarkerSizes_size.
    repeat destruct (Qle_bool _ zoom); by_compute.
  - unfold createMarkerIcon_size, updateMarkerSizes_size.
    repeat destruct (Qle_bool _ zoom); by_compute.
  - intros Hz. unfold updateMarkerSizes_size.
    destruct (Qle_bool 10 zoom) eqn:A.
    { apply Qle_bool_iff in A.
      assert (A' : Qle_bool 10 zoom' = true) by (apply Qle_bool_iff; lra).
      rewrite A'. apply Qle_refl. }
    destruct (Qle_bool 8 zoom) eqn:B.
    { apply Qle_bool_iff in B.
      assert (B' : Qle_bool 8 zoom' = true) by (apply Qle_bool_iff; lra).
      rewrite B'. destruct (Qle_bool 10 zoom'); by_compute. }
    destruct (Qle_bool 6 zoom) eqn:C.
    { apply Qle_bool_iff in C.
      assert (C' : Qle_bool 6 zoom' = true) by (apply Qle_bool_iff; lra).
      rewrite C'. repeat destruct (Qle_bool _ zoom'); by_compute. }
    repeat destruct (Qle_bool _ zoom'); by_compute.
Qed.

(** ** The select options and the dashboard *)

Lemma Set_add_spec seen x :
  NoDup seen ->
  NoDup (Set_add seen x) /\
  forall y, In y (Set_add seen x) <-> In y seen \/ y = x.
Proof.
  intros Hnd. unfold Set_add.
  destruct (existsb (String.eqb x) seen) eqn:E.
  - split; [exact Hnd|]. intros y. split; [auto|].
    intros [H| ->]; [exact H|].
    apply List.existsb_exists in E. destruct E as (z & Hz & Hxz).
    apply String.eqb_eq in Hxz. subst z. exact Hz.
  - split.
    + apply List.NoDup_app; [exact Hnd | repeat constructor; intros [] |].
      intros y Hy [<-|[]].
      assert (Hex : existsb (String.eqb x) seen = true).
      { apply List.existsb_exists. exists x. split; [exact Hy|].
        apply String.eqb_refl. }
      congruence.
    + intros y. rewrite List.in_app_iff. cbn [In]. intuition congruence.
Qed.

Lemma Set_of_fold a : forall seen,
  NoDup seen ->
  NoDup (fold_left Set_add a seen) /\
  forall y, In y (fold_left Set_add a seen) <-> In y seen \/ In y a.
Proof.
  induction a as [|x a IH]; intros seen Hnd; cbn [fold_left].
  - split; [exact Hnd|]. intros y. cbn [In]. tauto.
  - destruct (Set_add_spec seen x Hnd) as [Hnd' Hin'].
    destruct (IH (Set_add seen x) Hnd') as [Hnd'' Hin''].
    split; [exact Hnd''|]. intros y. rewrite Hin'', Hin'. cbn [In].
    intuition congruence.
Qed.

Lemma Set_of_spec a :
  NoDup (Set_of a) /\ forall y, In y (Set_of a) <-> In y a.
Proof.
  destruct (Set_of_fold a [] (NoDup_nil _)) as [Hnd Hin].
  split; [exact Hnd|]. intros y. unfold Set_of. rewrite Hin. cbn [In]. tauto.
Qed.

Lemma codeunit_compare_total_trans :
  (forall a b, 0 < codeunit_compare a b -> codeunit_compare b a <= 0) /\
  (forall a b c, codeunit_compare a b <= 0 -> codeunit_compare b c <= 0 ->
                 codeunit_compare a c <= 0).
Proof.
  destruct codeunit_compare_consistent as [Hsym Htrans]. split.
  - intros a b H. specialize (Hsym a b). lia.
  - exact Htrans.
Qed.

Lemma options_of_spec (field : Factory -> string) FACTORIES :
  let options := sort_default (Set_of (List.map field FACTORIES)) in
  NoDup options /\
  StronglySorted (fun a b => String.compare a b <> Gt) options /\
  forall s, In s options <-> exists f, In f FACTORIES /\ field f = s.
Proof.
  intros options. unfold options, sort_default.
  destruct (Set_of_spec (List.map field FACTORIES)) as [Hnd Hin].
  destruct codeunit_compare_total_trans as [Htot Htrans].
  split; [| split].
  - eapply Permutation_NoDup; [| exact Hnd].
    apply Permutation_sym, Array_sort_Permutation.
  - pose proof (Array_sort_StronglySorted _ Htot Htrans
                  (Set_of (List.map field FACTORIES))) as Hs.
    induction Hs as [|a l' _ IH Hall]; constructor; [exact IH|].
    eapply List.Forall_impl; [| exact Hall].
    intros b Hab. unfold in_order, codeunit_compare in Hab.
    destruct (String.compare a b); [discriminate | discriminate | lia].
  - intros s. rewrite Array_sort_In, Hin, List.in_map_iff.
    split; intros (f & H1 & H2); exists f; auto.
Qed.

(** X19. The options of the state select and of the industry select
    are the states, respectively the industries, that occur in
    [FACTORIES]: each once, in the order of the code units. *)
Theorem select_options_spec FACTORIES :
  (NoDup (states_of FACTORIES) /\
   StronglySorted (fun a b => String.compare a b <> Gt) (states_of FACTORIES) /\
   forall s, In s (states_of FACTORIES) <->
             exists f, In f FACTORIES /\ state f = s) /\
  (NoDup (industries_of FACTORIES) /\
   StronglySorted (fun a b => String.compare a b <> Gt)
     (industries_of FACTORIES) /\
   forall s, In s (industries_of FACTORIES) <->
             exists f, In f FACTORIES /\ industryType f = s).
Proof.
  split.
  - exact (options_of_spec state FACTORIES).
  - exact (options_of_spec industryType FACTORIES).
Qed.

Lemma stateRow_count_zero l s :
  fst (stateRow l s) = 0%nat <-> forall f, In f l -> state f <> s.
Proof.
  unfold stateRow, Array_filter. cbn [fst]. split.
  - intros H f Hf E. apply List.length_zero_iff_nil in H.
    assert (Hin : In f (List.filter (fun f => String.eqb (state f) s) l)).
    { apply List.filter_In. split; [exact Hf | apply String.eqb_eq, E]. }
    rewrite H in Hin. destruct Hin.
  - intros H. apply List.length_zero_iff_nil.
    destruct (List.filter (fun f => String.eqb (state f) s) l) as [|f r] eqn:E;
      [reflexivity|].
    assert (Hin : In f (List.filter (fun f => String.eqb (state f) s) l))
      by (rewrite E; left; reflexivity).
    apply List.filter_In in Hin. destruct Hin as [Hf Hs].
    apply String.eqb_eq in Hs. exfalso. exact (H f Hf Hs).
Qed.

Lemma stateRow_avg_nan l s :
  snd (stateRow l s) = None <-> fst (stateRow l s) = 0%nat.
Proof.
  unfold stateRow. cbn [fst snd]. unfold div.
  set (n := List.length _).
  destruct (Qeq_bool (inject_Z (Z.of_nat n)) 0) eqn:E; cbn [option_map].
  - apply Qeq_bool_iff in E. unfold Qeq in E. cbn in E. split; [lia | reflexivity].
  - apply Qeq_bool_neq in E. split; [discriminate|].
    intros H. exfalso. apply E. rewrite H. reflexivity.
Qed.

(** X20. A row of the state-wise distribution divides by its count
    without a guard: its average AQI is NaN exactly when its count is
    zero, which is exactly when no record of the list shown is of that
    state. *)
Theorem stateRow_nan l s :
  (snd (stateRow l s) = None <-> fst (stateRow l s) = 0%nat) /\
  (fst (stateRow l s) = 0%nat <-> forall f, In f l -> state f <> s).
Proof. split; [apply stateRow_avg_nan | apply stateRow_count_zero]. Qed.

(** X21. With a state selected, the row of every other state has count
    zero and a NaN average, which the bar draws in the colour of the
    best band. *)
Theorem stateRow_of_other_state localeCompare dataset c s :
  selectedState c <> "All"%string ->
  s <> selectedState c ->
  stateRow (filteredFactories_of localeCompare dataset c) s = (0%nat, None) /\
  getPollutionColor (snd (stateRow (filteredFactories_of localeCompare dataset c) s))
  = "#22c55e"%string.
Proof.
  intros Hsel Hs.
  assert (H0 : fst (stateRow (filteredFactories_of localeCompare dataset c) s)
               = 0%nat).
  { apply stateRow_count_zero. intros f Hf E.
    apply filteredFactories_of_In in Hf. destruct Hf as [_ Hm].
    unfold matches in Hm. cbv zeta in Hm.
    repeat (apply andb_prop in Hm; destruct Hm as [Hm ?]).
    match goal with H : String.eqb (selectedState c) _ || _ = true |- _ =>
      apply orb_prop in H; destruct H as [H|H]; apply String.eqb_eq in H end;
      congruence. }
  pose proof (proj2 (stateRow_avg_nan _ s) H0) as H1.
  split.
  - destruct (stateRow _ s) as [n a]. cbn [fst snd] in H0, H1. congruence.
  - rewrite H1. reflexivity.
Qed.

Lemma stateRow_of_other_state_witness :
  stateRow (filteredFactories_of codeunit_compare example_dataset
              (handle initial_criteria (StateSelect "Uttarakhand")))
           "Punjab"
  = (0%nat, None) /\
  getPollutionColor
    (snd (stateRow (filteredFactories_of codeunit_compare example_dataset
                      (handle initial_criteria (StateSelect "Uttarakhand")))
                   "Punjab"))
  = "#22c55e"%string.
Proof.
  apply (stateRow_of_other_state codeunit_compare example_dataset
           (handle initial_criteria (StateSelect "Uttarakhand")) "Punjab");
    discriminate.
Defined.

Lemma list_sum_cons a l : list_sum (a :: l) = (a + list_sum l)%nat.
Proof. reflexivity. Qed.

Lemma sum_indicator_absent (x : string) keys :
  ~ In x keys ->
  list_sum (List.map (fun s => if String.eqb x s then 1 else 0)%nat keys) = 0%nat.
Proof.
  induction keys as [|y keys IH]; intros Hx; [reflexivity|].
  cbn [List.map]. rewrite list_sum_cons.
  destruct (String.eqb_spec x y) as [e|_].
  - exfalso. apply Hx. left. symmetry. exact e.
  - rewrite IH; [reflexivity|]. intros H. apply Hx. right. exact H.
Qed.

Lemma sum_indicator (x : string) keys :
  NoDup keys -> In x keys ->
  list_sum (List.map (fun s => if String.eqb x s then 1 else 0)%nat keys) = 1%nat.
Proof.
  induction 1 as [|k keys Hk Hnd IH]; intros Hin; [destruct Hin|].
  cbn [List.map]. rewrite list_sum_cons.
  destruct (String.eqb_spec x k) as [e|Hne].
  - rewrite <- e in Hk. rewrite (sum_indicator_absent x keys Hk). reflexivity.
  - destruct Hin as [e|Hin]; [symmetry in e; contradiction|].
    rewrite (IH Hin). reflexivity.
Qed.

Lemma list_sum_map_add (g h : string -> nat) ks :
  list_sum (List.map (fun s => (g s + h s)%nat) ks)
  = (list_sum (List.map g ks) + list_sum (List.map h ks))%nat.
Proof.
  induction ks as [|k ks IH]; [reflexivity|].
  cbn [List.map]. rewrite !list_sum_cons, IH. lia.
Qed.

Lemma counts_partition (key : Factory -> string) keys l :
  NoDup keys ->
  (forall f, In f l -> In (key f) keys) ->
  list_sum
    (List.map
       (fun s => List.length (List.filter (fun f => String.eqb (key f) s) l))
       keys)
  = List.length l.
Proof.
  intros Hnd. induction l as [|f l IH]; intros Hin.
  - cbn [List.filter List.length]. clear. induction keys as [|k keys IH];
      [reflexivity|]. cbn [List.map]. rewrite list_sum_cons, IH. reflexivity.
  - assert (E : forall s,
               List.length (List.filter (fun f => String.eqb (key f) s) (f :: l))
               = ((if String.eqb (key f) s then 1 else 0)
                  + List.length (List.filter (fun f => String.eqb (key f) s) l))%nat).
    { intros s. cbn [List.filter]. destruct (String.eqb (key f) s); reflexivity. }
    rewrite (List.map_ext _ _ E).
    rewrite (list_sum_map_add
               (fun s => if String.eqb (key f) s then 1 else 0)%nat
               (fun s => List.length
                           (List.filter (fun f => String.eqb (key f) s) l))).
    rewrite IH by (intros g Hg; apply Hin; right; exact Hg).
    rewrite (sum_indicator (key f) keys Hnd) by (apply Hin; left; reflexivity).
    reflexivity.
Qed.

(** X22. The counts of the state-wise distribution add up to the number
    of records shown: every record of the output is counted in the row
    of exactly one state of the select. *)
Theorem stateRow_counts_partition localeCompare FACTORIES c :
  let out := filteredFactories_of localeCompare FACTORIES c in
  list_sum (List.map (fun s => fst (stateRow out s)) (states_of FACTORIES))
  = List.length out.
Proof.
  intros out.
  destruct (options_of_spec state FACTORIES) as (Hnd & _ & Hin).
  apply (counts_partition state (states_of FACTORIES) out Hnd).
  intros f Hf. apply Hin. exists f. split; [| reflexivity].
  apply filteredFactories_of_In in Hf. apply Hf.
Qed.

(** ** More on the generator *)

Section GeneratorMore.
Import IEEE754_facts Bounds.

Lemma mul_random_le r n :
  is_random r = true -> (0 <= n)%Q ->
  (mul r n <= mul (1 - (1 # 9007199254740992)) n)%Q.
Proof. intros Hr Hn. apply (mul_random_bounds r n Hr Hn). Qed.

Lemma add_mul_random_le r n c :
  is_random r = true -> (0 <= n)%Q ->
  (add (mul r n) c <= add (mul (1 - (1 # 9007199254740992)) n) c)%Q.
Proof.
  intros Hr Hn. unfold add. apply fl_mono.
  pose proof (mul_random_le r n Hr Hn). lra.
Qed.

Lemma floor_add_mul_random_range r n (c m : Z) :
  is_random r = true -> (0 <= n)%Q -> is_double (inject_Z c) = true ->
  (Math_floor (add (mul (1 - (1 # 9007199254740992)) n) (inject_Z c)) <=? m)
  = true ->
  c <= Math_floor (add (mul r n) (inject_Z c)) <= m.
Proof.
  intros Hr Hn Hc Hm. split.
  - apply floor_add_mul_random_ge; assumption.
  - apply Z.leb_le in Hm. eapply Z.le_trans; [| exact Hm].
    apply Qfloor_resp_le, add_mul_random_le; assumption.
Qed.

Lemma toFixed_mono x y digits :
  (0 <= x)%Q -> (x <= y)%Q -> (toFixed x digits <= toFixed y digits)%Q.
Proof.
  intros Hx Hxy. unfold toFixed.
  assert (Hy : (0 <= y)%Q) by lra.
  apply Qle_bool_iff in Hx, Hy. rewrite Hx, Hy.
  set (s := (10 ^ Z.of_nat digits)%Z).
  assert (Hs : (0 < inject_Z s)%Q).
  { rewrite <- (Zlt_Qlt 0). apply Z.pow_pos_nonneg; lia. }
  apply Qmult_le_compat_r; [| apply Qlt_le_weak, Qinv_lt_0_compat, Hs].
  rewrite <- Zle_Qle. apply Qfloor_resp_le. nra.
Qed.

Lemma parseFloat_toFixed_mono x y digits :
  (0 <= x)%Q -> (x <= y)%Q ->
  (parseFloat (toFixed x digits) <= parseFloat (toFixed y digits))%Q.
Proof. intros Hx Hxy. unfold parseFloat. apply fl_mono, toFixed_mono; assumption. Qed.

Lemma parseFloat_toFixed_random r n c digits :
  is_random r = true -> (0 <= n)%Q -> (0 <= c)%Q -> is_double c = true ->
  (parseFloat (toFixed c digits)
   <= parseFloat (toFixed (add (mul r n) c) digits))%Q /\
  (parseFloat (toFixed (add (mul r n) c) digits)
   <= parseFloat
        (toFixed (add (mul (1 - (1 # 9007199254740992)) n) c) digits))%Q.
Proof.
  intros Hr Hn Hc Hd.
  pose proof (add_mul_random_ge r n c Hr Hn Hd) as Hlo.
  split.
  - apply parseFloat_toFixed_mono; assumption.
  - apply parseFloat_toFixed_mono; [lra|]. apply add_mul_random_le; assumption.
Qed.

(** A coordinate: the centre plus [(Math.random() - 0.5) * spread],
    rounded to six decimals. *)
Lemma coordinate_bounds centre s r :
  is_random r = true -> (0 <= s)%Q ->
  is_double (- (1 # 2) * s) = true -> is_double ((1 # 2) * s) = true ->
  (0 <= add centre (- (1 # 2) * s))%Q ->
  let x := parseFloat
             (toFixed (add centre (mul (sub r (lit (5 # 10))) s)) 6) in
  (parseFloat (toFixed (add centre (- (1 # 2) * s)) 6) <= x)%Q /\
  (x <= parseFloat (toFixed (add centre ((1 # 2) * s)) 6))%Q.
Proof.
  intros Hr Hs Hd1 Hd2 H0 x.
  destruct (is_random_spec r Hr) as (_ & R0 & R1).
  assert (Hlit : (lit (5 # 10) == 1 # 2)%Q) by by_compute.
  assert (A1 : (- (1 # 2) <= sub r (lit (5 # 10)))%Q).
  { unfold sub. apply fl_ge; [by_compute | rewrite Hlit; lra]. }
  assert (A2 : (sub r (lit (5 # 10)) <= 1 # 2)%Q).
  { unfold sub. apply fl_le; [by_compute | rewrite Hlit; lra]. }
  assert (B1 : (- (1 # 2) * s <= mul (sub r (lit (5 # 10))) s)%Q).
  { unfold mul. apply fl_ge; [exact Hd1 | nra]. }
  assert (B2 : (mul (sub r (lit (5 # 10))) s <= (1 # 2) * s)%Q).
  { unfold mul. apply fl_le; [exact Hd2 | nra]. }
  assert (C1 : (add centre (- (1 # 2) * s)
                <= add centre (mul (sub r (lit (5 # 10))) s))%Q).
  { unfold add. apply fl_mono. lra. }
  assert (C2 : (add centre (mul (sub r (lit (5 # 10))) s)
                <= add centre ((1 # 2) * s))%Q).
  { unfold add. apply fl_mono. lra. }
  split; apply parseFloat_toFixed_mono; try assumption. lra.
Qed.

Ltac coordinate r Hr :=
  match goal with
  | |- (_ <= parseFloat (toFixed (add ?c (mul (sub r _) ?s)) 6) /\ _)%Q =>
      let L := fresh "L" in
      let U := fresh "U" in
      destruct (coordinate_bounds c s r Hr) as [L U];
      [by_compute | by_compute | by_compute | by_compute |];
      split;
      [eapply Qle_trans; [| exact L]; by_compute
      |eapply Qle_trans; [exact U |]; by_compute]
  end.

Lemma near_centre_generated st r1 r2 :
  In st states -> is_random r1 = true -> is_random r2 = true ->
  let h := (StateInfo.spread st / 2 + (1 # 1000000))%Q in
  let la := parseFloat
              (toFixed (add (snd (StateInfo.center st))
                            (mul (sub r1 (lit (5 # 10))) (StateInfo.spread st)))
                       6) in
  let lo := parseFloat
              (toFixed (add (fst (StateInfo.center st))
                            (mul (sub r2 (lit (5 # 10))) (StateInfo.spread st)))
                       6) in
  (snd (StateInfo.center st) - h <= la
   /\ la <= snd (StateInfo.center st) + h)%Q /\
  (fst (StateInfo.center st) - h <= lo
   /\ lo <= fst (StateInfo.center st) + h)%Q.
Proof.
  intros Hin Hr1 Hr2. cbv beta zeta delta [states] in Hin. cbn [In] in Hin.
  repeat (destruct Hin as [<-|Hin]); [.. | destruct Hin];
    cbv zeta; cbn [StateInfo.center StateInfo.spread fst snd];
    (split; [coordinate r1 Hr1 | coordinate r2 Hr2]).
Qed.

End GeneratorMore.

Section GeneratorRanges.
Import IEEE754_facts Bounds.
Variable random : nat -> Q.
Hypothesis random_valid : valid_random random.

Ltac floor_range c m :=
  apply (floor_add_mul_random_range _ _ c m);
  [apply random_valid | by_compute | by_compute | by_compute].

Ltac fixed_range :=
  match goal with
  | |- (_ <= parseFloat (toFixed (add (mul ?r ?n) ?c) ?d) /\ _)%Q =>
      let L := fresh "L" in
      let U := fresh "U" in
      destruct (parseFloat_toFixed_random r n c d) as [L U];
      [apply random_valid | by_compute | by_compute | by_compute |];
      split;
      [eapply Qle_trans; [| exact L]; by_compute
      |eapply Qle_trans; [exact U |]; by_compute]
  end.

Ltac scaled_range n :=
  match goal with
  | |- _ <= Math_floor (mul ?r _) + _ <= _ =>
      let H := fresh "H" in
      assert (H : 0 <= Math_floor (mul r (inject_Z n)) < n)
        by (apply floor_mul_random; [apply random_valid | lia | by_compute]);
      change (inject_Z n) with (n # 1)%Q in H; lia
  | |- _ <= Math_floor (mul ?r _) <= _ =>
      let H := fresh "H" in
      assert (H : 0 <= Math_floor (mul r (inject_Z n)) < n)
        by (apply floor_mul_random; [apply random_valid | lia | by_compute]);
      change (inject_Z n) with (n # 1)%Q in H; lia
  end.

Lemma at_index_In {A} (l : list A) i a : at_index l i = Some a -> In a l.
Proof.
  unfold at_index. destruct (i <? 0); [discriminate|]. apply nth_error_In.
Qed.

Lemma generateFactory_more i cursor :
  exists f,
    generateFactory i random cursor = Some (f, (cursor + 33)%nat) /\
    in_ranges f /\ from_catalogs f.
Proof.
  unfold generateFactory.
  cbv beta iota zeta delta [bind Math_random ret defined].
  destruct (at_index_random states (random cursor) (random_valid _))
    as [st Hst]; [reflexivity | by_compute |].
  rewrite Hst. cbv beta iota.
  destruct (at_index_random industryTypes (random (S (S (S cursor))))
              (random_valid _))
    as [ind Hind]; [reflexivity | by_compute |].
  rewrite Hind. cbv beta iota.
  apply at_index_In in Hst, Hind.
  eexists. split.
  { f_equal. f_equal. lia. }
  split.
  - unfold in_ranges.
    cbn [yearEstablished employees pollution co co2 nox so2 o3 voc
         particleComposition organicCarbon blackCarbon sulfates nitrates
         metals dust emissionSources stacks vehicles processes fugitive
         complianceScore violations healthImpactRadius populationAffected
         seasonalVariation winter summer monsoon].
    split; [scaled_range 45|]. split; [scaled_range 3000|].
    split; [fixed_range|]. split; [floor_range 400 1200|].
    split; [floor_range 30 179|]. split; [floor_range 40 239|].
    split; [floor_range 20 140|]. split; [fixed_range|].
    split; [fixed_range|]. split; [fixed_range|]. split; [fixed_range|].
    split; [fixed_range|]. split; [fixed_range|]. split; [fixed_range|].
    split; [floor_range 20 70|]. split; [floor_range 10 40|].
    split; [floor_range 15 54|]. split; [floor_range 5 29|].
    split; [scaled_range 100|]. split; [scaled_range 15|].
    split; [fixed_range|]. split; [floor_range 10000 109999|].
    split; [floor_range 80 120|]. split; [floor_range 60 90|].
    floor_range 50 75.
  - exists st, ind. cbn [state industryType products name id].
    split; [exact Hst|]. split; [exact Hind|]. split; [reflexivity|].
    split; [| split; [reflexivity | split; reflexivity]].
    unfold near_centre. cbn [lat lon].
    apply (near_centre_generated st _ _ Hst (random_valid _) (random_valid _)).
Qed.

Lemma generateLoop_Forall2 (P : Z -> Factory -> Prop) :
  (forall i cursor,
     exists f, generateFactory i random cursor = Some (f, (cursor + 33)%nat)
               /\ P i f) ->
  forall n i factories cursor,
  exists fs,
    generateLoop n i factories random cursor
    = Some (factories ++ fs, (cursor + 33 * n)%nat) /\
    Forall2 P (indices i n) fs.
Proof.
  intros HP. induction n as [|n IH]; intros i factories cursor.
  - exists []. split; [| constructor].
    cbn [generateLoop]. unfold ret. rewrite app_nil_r. do 2 f_equal. lia.
  - destruct (HP i cursor) as (f & Hf & Hw).
    destruct (IH (i + 1) (factories ++ [f]) (cursor + 33)%nat)
      as (fs & Hfs & Hall).
    exists (f :: fs). split.
    + cbn [generateLoop]. unfold bind. rewrite Hf, Hfs.
      rewrite <- app_assoc. do 2 f_equal. lia.
    + rewrite indices_S. constructor; assumption.
Qed.

(** Everything the generator guarantees of its records. *)
Lemma generateFactories_all count :
  exists fs,
    generateFactoriesN count random = Some fs /\
    List.length fs = count /\
    List.Forall
      (fun f => (exists i, well_generated i f) /\ in_ranges f /\ from_catalogs f)
      fs.
Proof.
  destruct (generateLoop_Forall2
              (fun i f => well_generated i f /\ in_ranges f /\ from_catalogs f))
    with (n := count) (i := 1) (factories := @nil Factory) (cursor := 0%nat)
    as (fs & Hfs & Hall).
  { intros i cursor.
    destruct (generateFactory_spec random random_valid i cursor) as (f & Hf & Hw).
    destruct (generateFactory_more i cursor) as (f' & Hf' & Hr & Hc).
    rewrite Hf in Hf'. injection Hf' as <-.
    exists f. split; [exact Hf | split; [exact Hw | split; assumption]]. }
  exists fs. split; [| split].
  - unfold generateFactoriesN, run. rewrite Hfs. reflexivity.
  - apply Forall2_length in Hall. rewrite <- Hall.
    unfold indices. rewrite List.length_map, List.length_seq. reflexivity.
  - clear Hfs. induction Hall as [|i f ids fs Hw _ IH]; constructor;
      [| exact IH].
    destruct Hw as (Hw & Hr & Hc). split; [exists i; exact Hw | split; assumption].
Qed.

End GeneratorRanges.

(** X23. Every numeric field of a generated record lies in its range,
    ends included: for instance the year in 1975..2019, the compliance
    score in 0..99, the violations in 0..14, the population in
    10000..109999, O3 in 20..140 and the health impact radius in 2..10. *)
Theorem generated_in_ranges random :
  valid_random random ->
  exists fs,
    generateFactories random = Some fs /\ List.Forall in_ranges fs.
Proof.
  intros Hv.
  destruct (generateFactories_all random Hv 300) as (fs & Hfs & _ & Hall).
  exists fs. split; [exact Hfs|].
  eapply List.Forall_impl; [| exact Hall]. intros f H. apply H.
Qed.

Lemma generated_in_ranges_witness :
  exists fs,
    generateFactories sample_random = Some fs /\ List.Forall in_ranges fs.
Proof.
  apply (generated_in_ranges sample_random). exact sample_random_valid.
Defined.

(** X24. Every generated record is made of the catalogs: its state is a
    state of the catalog and its coordinates lie within half the spread
    of that state (and the millionth of the rounding) of its centre; its
    industry and products are those of one entry of the industry
    catalog; and its name is the first word of that industry, then
    " Facility ", then its id padded to three digits. *)
Theorem generated_from_catalogs random :
  valid_random random ->
  exists fs,
    generateFactories random = Some fs /\ List.Forall from_catalogs fs.
Proof.
  intros Hv.
  destruct (generateFactories_all random Hv 300) as (fs & Hfs & _ & Hall).
  exists fs. split; [exact Hfs|].
  eapply List.Forall_impl; [| exact Hall]. intros f H. apply H.
Qed.

Lemma generated_from_catalogs_witness :
  exists fs,
    generateFactories sample_random = Some fs /\ List.Forall from_catalogs fs.
Proof.
  apply (generated_from_catalogs sample_random). exact sample_random_valid.
Defined.

Lemma matches_initial i f :
  well_generated i f -> matches initial_criteria f = true.
Proof.
  intros Hw. unfold well_generated in Hw.
  destruct Hw as (_ & Haqi & _).
  unfold initial_criteria. rewrite (matches_example (0, 500) "aqi").
  cbn [fst snd]. apply andb_true_intro. split; apply Z.leb_le; lia.
Qed.

(** X25. With the controls as the page starts them, and as "Clear All
    Filters" puts them back, nothing of the generated dataset is
    filtered out: the output is a permutation of the 300 records. *)
Theorem initial_criteria_show_all random localeCompare c :
  valid_random random ->
  handle c ClearFilters = initial_criteria /\
  exists fs,
    generateFactories random = Some fs /\
    List.length fs = 300%nat /\
    Permutation (filteredFactories_of localeCompare fs initial_criteria) fs.
Proof.
  intros Hv. split; [reflexivity|].
  destruct (generateFactories_all random Hv 300) as (fs & Hfs & Hlen & Hall).
  exists fs. split; [exact Hfs|]. split; [exact Hlen|].
  unfold filteredFactories_of, Array_filter.
  rewrite filter_all_true; [apply Array_sort_Permutation|].
  eapply List.Forall_impl; [| exact Hall].
  intros f ((i & Hw) & _). exact (matches_initial i f Hw).
Qed.

Lemma initial_criteria_show_all_witness :
  handle (example_criteria (100, 400) "name") ClearFilters = initial_criteria /\
  exists fs,
    generateFactories sample_random = Some fs /\
    List.length fs = 300%nat /\
    Permutation (filteredFactories_of codeunit_compare fs initial_criteria) fs.
Proof.
  apply (initial_criteria_show_all sample_random codeunit_compare
           (example_criteria (100, 400) "name")).
  exact sample_random_valid.
Defined.

(** X26. On the generated dataset the state select offers at most ten
    states, all of the catalog, and none of them is an empty choice:
    selecting one, the other controls as the page starts them, shows at
    least one record, and its row of the state-wise distribution has an
    average that is a number. *)
Theorem offered_states_not_empty random localeCompare :
  valid_random random ->
  exists fs,
    generateFactories random = Some fs /\
    (List.length (states_of fs) <= 10)%nat /\
    forall s, In s (states_of fs) ->
      In s (List.map StateInfo.name states) /\
      filteredFactories_of localeCompare fs
        (handle initial_criteria (StateSelect s)) <> [] /\
      snd (stateRow (filteredFactories_of localeCompare fs initial_criteria) s)
      <> None.
Proof.
  intros Hv.
  destruct (generateFactories_all random Hv 300) as (fs & Hfs & Hlen & Hall).
  exists fs. split; [exact Hfs|].
  destruct (options_of_spec state fs) as (Hnd & _ & Hin).
  fold (states_of fs) in Hnd, Hin.
  rewrite List.Forall_forall in Hall.
  assert (Hcat : forall s, In s (states_of fs) ->
                           In s (List.map StateInfo.name states)).
  { intros s Hs. apply Hin in Hs. destruct Hs as (f & Hf & <-).
    destruct (Hall f Hf) as (_ & _ & (st & ind & Hst & _ & -> & _)).
    apply List.in_map, Hst. }
  split.
  { change 10%nat with (List.length (List.map StateInfo.name states)).
    apply NoDup_incl_length; [exact Hnd | exact Hcat]. }
  intros s Hs. split; [exact (Hcat s Hs)|].
  apply Hin in Hs. destruct Hs as (f & Hf & Es).
  destruct (Hall f Hf) as ((i & Hw) & _ & _).
  pose proof (matches_initial i f Hw) as Hm.
  split.
  - intros Hnil.
    assert (Hf' : In f (filteredFactories_of localeCompare fs
                          (handle initial_criteria (StateSelect s)))).
    { apply filteredFactories_of_In. split; [exact Hf|].
      unfold matches in Hm |- *.
      cbn [handle initial_criteria searchTerm selectedState selectedIndustry
           aqiRange pollutantFilter] in Hm |- *.
      rewrite Es, (String.eqb_refl s), orb_true_r.
      cbn [String.eqb Ascii.eqb Bool.eqb orb andb negb] in Hm |- *. exact Hm. }
    rewrite Hnil in Hf'. destruct Hf'.
  - intros Hnan. apply stateRow_avg_nan in Hnan.
    apply (proj1 (stateRow_count_zero _ s)) with (f := f) in Hnan.
    + contradiction.
    + apply filteredFactories_of_In. split; assumption.
Qed.

Lemma offered_states_not_empty_witness :
  exists fs,
    generateFactories sample_random = Some fs /\
    (List.length (states_of fs) <= 10)%nat /\
    forall s, In s (states_of fs) ->
      In s (List.map StateInfo.name states) /\
      filteredFactories_of codeunit_compare fs
        (handle initial_criteria (StateSelect s)) <> [] /\
      snd (stateRow (filteredFactories_of codeunit_compare fs initial_criteria) s)
      <> None.
Proof.
  apply (offered_states_not_empty sample_random codeunit_compare).
  exact sample_random_valid.
Defined.



(** ** The filter controls *)

Lemma handle_invariant FACTORIES c e :
  offered FACTORIES e ->
  (fst (aqiRange c) = 0 /\ 0 <= snd (aqiRange c) <= 500 /\
   In (sortBy c) sort_options /\ In (pollutantFilter c) pollutant_options /\
   (selectedState c = "All"%string \/ In (selectedState c) (states_of FACTORIES)) /\
   (selectedIndustry c = "All"%string
    \/ In (selectedIndustry c) (industries_of FACTORIES))) ->
  let c' := handle c e in
  fst (aqiRange c') = 0 /\ 0 <= snd (aqiRange c') <= 500 /\
  In (sortBy c') sort_options /\ In (pollutantFilter c') pollutant_options /\
  (selectedState c' = "All"%string \/ In (selectedState c') (states_of FACTORIES)) /\
  (selectedIndustry c' = "All"%string
   \/ In (selectedIndustry c') (industries_of FACTORIES)).
Proof.
  intros He (H1 & H2 & H3 & H4 & H5 & H6).
  destruct e; cbn [offered] in He; cbv zeta;
    cbn [handle aqiRange sortBy pollutantFilter selectedState selectedIndustry
         fst snd];
    repeat split; try assumption; try lia;
    try (cbn; auto 20; fail).
Qed.

(** X28. An invariant of the controls.  Whatever the user does with
    them, the lower end of the AQI range stays 0 (no control sets it) and
    the upper end stays in 0..500; the sort key is one of the four the
    comparator knows, so its fall-through is never reached; the pollutant
    focus is "all" or one of the eight pollutants; and the state and the
    industry are "All" or an option of their select. *)
Theorem controls_invariant FACTORIES events :
  List.Forall (offered FACTORIES) events ->
  let c := after events in
  fst (aqiRange c) = 0 /\ 0 <= snd (aqiRange c) <= 500 /\
  In (sortBy c) sort_options /\ In (pollutantFilter c) pollutant_options /\
  (selectedState c = "All"%string \/ In (selectedState c) (states_of FACTORIES)) /\
  (selectedIndustry c = "All"%string
   \/ In (selectedIndustry c) (industries_of FACTORIES)).
Proof.
  intros Hev. unfold after.
  assert (Hinit :
    fst (aqiRange initial_criteria) = 0 /\
    0 <= snd (aqiRange initial_criteria) <= 500 /\
    In (sortBy initial_criteria) sort_options /\
    In (pollutantFilter initial_criteria) pollutant_options /\
    (selectedState initial_criteria = "All"%string
     \/ In (selectedState initial_criteria) (states_of FACTORIES)) /\
    (selectedIndustry initial_criteria = "All"%string
     \/ In (selectedIndustry initial_criteria) (industries_of FACTORIES))).
  { cbn. repeat split; auto 10; lia. }
  revert Hinit. generalize initial_criteria.
  induction Hev as [|e events He _ IH]; intros c Hc; cbn [fold_left].
  - exact Hc.
  - apply IH. exact (handle_invariant FACTORIES c e He Hc).
Qed.

Lemma controls_invariant_witness :
  let c := after [ SearchInput "steel"; StateSelect "All"; AqiSlider 300;
                   SortSelect "name"; PollutantSelect "co"; ClearFilters;
                   IndustrySelect "All"; AqiSlider 420 ] in
  fst (aqiRange c) = 0 /\ 0 <= snd (aqiRange c) <= 500 /\
  In (sortBy c) sort_options /\ In (pollutantFilter c) pollutant_options /\
  (selectedState c = "All"%string
   \/ In (selectedState c) (states_of example_dataset)) /\
  (selectedIndustry c = "All"%string
   \/ In (selectedIndustry c) (industries_of example_dataset)).
Proof.
  apply (controls_invariant example_dataset
           [ SearchInput "steel"; StateSelect "All"; AqiSlider 300;
             SortSelect "name"; PollutantSelect "co"; ClearFilters;
             IndustrySelect "All"; AqiSlider 420 ]).
  repeat constructor; cbn; auto 20; lia.
Defined.

Lemma matches_true_iff c f :
  matches c f = true <->
  (searchTerm c = EmptyString \/
   includes (toLowerCase (name f)) (toLowerCase (searchTerm c)) = true \/
   includes (toLowerCase (state f)) (toLowerCase (searchTerm c)) = true \/
   includes (toLowerCase (industryType f)) (toLowerCase (searchTerm c)) = true) /\
  (selectedState c = "All"%string \/ state f = selectedState c) /\
  (selectedIndustry c = "All"%string \/ industryType f = selectedIndustry c) /\
  fst (aqiRange c) <= aqi (pollution f) <= snd (aqiRange c) /\
  (pollutantFilter c = "all"%string \/
   greater_than_zero (pollution_get (pollution f) (pollutantFilter c)) = true).
Proof.
  unfold matches. cbv zeta.
  rewrite !andb_true_iff, !orb_true_iff, !String.eqb_eq, !Z.leb_le.
  destruct (String.eqb_spec (pollutantFilter c) "all") as [E|E]; cbn [negb];
    intuition congruence.
Qed.

(** X29. On the generated dataset, whatever the user has done with the
    controls, two of the five conditions of the filter cannot exclude a
    record: the lower end of the AQI range and the pollutant focus.  A
    record is shown exactly when it passes the search, the state, the
    industry and the upper end of the AQI range. *)
Theorem reachable_filter_on_generated random localeCompare :
  valid_random random ->
  exists fs,
    generateFactories random = Some fs /\
    forall events, List.Forall (offered fs) events ->
    let c := after events in
    forall f,
      In f (filteredFactories_of localeCompare fs c) <->
      In f fs /\
      (searchTerm c = EmptyString \/
       includes (toLowerCase (name f)) (toLowerCase (searchTerm c)) = true \/
       includes (toLowerCase (state f)) (toLowerCase (searchTerm c)) = true \/
       includes (toLowerCase (industryType f)) (toLowerCase (searchTerm c))
       = true) /\
      (selectedState c = "All"%string \/ state f = selectedState c) /\
      (selectedIndustry c = "All"%string \/ industryType f = selectedIndustry c) /\
      aqi (pollution f) <= snd (aqiRange c).
Proof.
  intros Hv.
  destruct (generateFactories_all random Hv 300) as (fs & Hfs & _ & Hall).
  exists fs. split; [exact Hfs|]. intros events Hev c f.
  assert (Hinv :
    fst (aqiRange c) = 0 /\ In (pollutantFilter c) pollutant_options).
  { revert Hev. unfold c, after.
    assert (Hinit : fst (aqiRange initial_criteria) = 0 /\
                    In (pollutantFilter initial_criteria) pollutant_options)
      by (cbn; auto).
    revert Hinit. generalize initial_criteria. clear c.
    induction events as [|e events IH]; intros c0 Hc0 Hev; cbn [fold_left];
      [exact Hc0|].
    inversion Hev as [|? ? He Hev']; subst. apply IH; [| exact Hev'].
    destruct Hc0 as [H1 H2].
    destruct e; cbn [offered] in He;
      cbn [handle aqiRange pollutantFilter fst]; split;
      try assumption; try reflexivity; cbn; auto. }
  destruct Hinv as [Hlo Hp].
  rewrite filteredFactories_of_In, matches_true_iff.
  split.
  - intros (Hf & Hs & Hst & Hi & Haqi & _). repeat split; try assumption. lia.
  - intros (Hf & Hs & Hst & Hi & Haqi).
    rewrite List.Forall_forall in Hall.
    destruct (Hall f Hf) as ((i & Hw) & _ & _).
    split; [exact Hf|]. split; [exact Hs|]. split; [exact Hst|].
    split; [exact Hi|]. split.
    + rewrite Hlo. unfold well_generated in Hw. lia.
    + unfold pollutant_options in Hp. cbn [In] in Hp.
      destruct Hp as [Hp|Hp]; [left; symmetry; exact Hp | right].
      assert (Hk : In (pollutantFilter c) AirPollutionData_keys).
      { unfold AirPollutionData_keys. cbn [In]. tauto. }
      destruct (pollutant_positive i f _ Hw Hk) as (v & Hv' & Hpos).
      rewrite Hv'. cbn [greater_than_zero].
      rewrite (Qle_bool_pos_false v Hpos). reflexivity.
Qed.

Lemma reachable_filter_on_generated_witness :
  exists fs,
    generateFactories sample_random = Some fs /\
    forall events, List.Forall (offered fs) events ->
    let c := after events in
    forall f,
      In f (filteredFactories_of codeunit_compare fs c) <->
      In f fs /\
      (searchTerm c = EmptyString \/
       includes (toLowerCase (name f)) (toLowerCase (searchTerm c)) = true \/
       includes (toLowerCase (state f)) (toLowerCase (searchTerm c)) = true \/
       includes (toLowerCase (industryType f)) (toLowerCase (searchTerm c))
       = true) /\
      (selectedState c = "All"%string \/ state f = selectedState c) /\
      (selectedIndustry c = "All"%string \/ industryType f = selectedIndustry c) /\
      aqi (pollution f) <= snd (aqiRange c).
Proof.
  apply (reachable_filter_on_generated sample_random codeunit_compare).
  exact sample_random_valid.
Defined.
